(** * Post-processing of generated FlatBuffers Go files

    A shallow embedding of package [languages] (the Go processor of
    [fbsprocessor]): the record-file detector, the syntax-tree patch that
    adds a [Name] method to every struct type, and the emission of
    [flatdatas_helper.go].

    The sources hold two revisions of the processor: the one with the
    patch step is embedded in full, the earlier one ([languages/go.go])
    differs in [ProcessFile] only.

    The Go standard library is modelled where the program calls it:
    [strings.Trim], [strings.TrimSuffix], [filepath.Base], [sort.Strings],
    [go/ast] with [ast.Inspect], and the execution of a [text/template]. *)

From Stdlib Require Import String Ascii List Bool Arith NArith Lia.
From Stdlib Require Import Permutation Sorted.
Import ListNotations.

Set Warnings "-register-all".

Local Open Scope string_scope.
Local Open Scope list_scope.

(** ** Characters that string literals here do not spell out *)

Definition dquote : string := String "034"%char EmptyString.
Definition newline : string := String "010"%char EmptyString.
Definition tab : string := String "009"%char EmptyString.

(** ** Package [strings] *)

Module strings.

(** [trimLeftByte]: drop every leading byte equal to [c]. *)
Fixpoint trimLeftByte (s : string) (c : ascii) : string :=
  match s with
  | EmptyString => EmptyString
  | String a s' => if Ascii.eqb a c then trimLeftByte s' c else s
  end.

(** [trimRightByte]: drop every trailing byte equal to [c]. *)
Fixpoint trimRightByte (s : string) (c : ascii) : string :=
  match s with
  | EmptyString => EmptyString
  | String a s' =>
      match trimRightByte s' c with
      | EmptyString => if Ascii.eqb a c then EmptyString else String a EmptyString
      | r => String a r
      end
  end.

(** [strings.Trim(s, cutset)] for a cutset of one ASCII byte, the only
    way the program calls it: Go takes the byte path
    [trimLeftByte(trimRightByte(s, c), c)]. *)
Definition Trim (s : string) (cutset : ascii) : string :=
  trimLeftByte (trimRightByte s cutset) cutset.

(** [strings.HasSuffix]: [len(s) >= len(suffix) && s[len(s)-len(suffix):] == suffix]. *)
Definition HasSuffix (s suffix : string) : bool :=
  Nat.leb (String.length suffix) (String.length s) &&
  String.eqb (substring (String.length s - String.length suffix)
                        (String.length suffix) s) suffix.

(** [strings.TrimSuffix]: [s[:len(s)-len(suffix)]] when [s] ends in
    [suffix], else [s]. *)
Definition TrimSuffix (s suffix : string) : string :=
  if HasSuffix s suffix
  then substring 0 (String.length s - String.length suffix) s
  else s.

End strings.

(** ** Package [path/filepath] (Unix: separator [/], no volume name) *)

Module filepath.

Definition IsPathSeparator (c : ascii) : bool := Ascii.eqb c "/"%char.

(** The text after the last separator of [s]; [None] when [s] has no
    separator (the loop [for i >= 0 && !IsPathSeparator(path[i]) { i-- }]
    ends with [i < 0]). *)
Fixpoint afterLastSeparator (s : string) : option string :=
  match s with
  | EmptyString => None
  | String c r =>
      match afterLastSeparator r with
      | Some t => Some t
      | None => if IsPathSeparator c then Some r else None
      end
  end.

(** [filepath.Base]: the last element of the path. *)
Definition Base (path : string) : string :=
  if String.eqb path "" then "."
  else
    (* strip trailing slashes *)
    let path := strings.trimRightByte path "/"%char in
    (* find the last element *)
    let path := match afterLastSeparator path with
                | Some t => t
                | None => path
                end in
    (* if empty now, it had only slashes *)
    if String.eqb path "" then "/" else path.

End filepath.

(** ** Package [go/token] and [go/ast] *)

Module token.
(** The keyword of a general declaration ([GenDecl.Tok]). *)
Inductive Token : Type := IMPORT | CONST | TYPE | VAR.
End token.

Module ast.

(** [*ast.BasicLit]: [Value] is the literal as written, quotes included. *)
Record BasicLit : Type := { Value : string }.

(** [*ast.ImportSpec]: [LocalName] is its field [Name] (the local
    package name, or nil), [Path] the import path literal. *)
Record ImportSpec : Type := { LocalName : option string; Path : BasicLit }.

(** Syntax-tree nodes. The node kinds the program tests or builds have a
    constructor each, with the fields [ast.Walk] follows, in its order;
    [Other] stands for a node of any other kind (value specs, calls,
    function literals, the remaining statements and type expressions)
    with the children [ast.Walk] visits. A field of static type
    [*ast.Ident] holds the identifier's name. Positions and comment
    groups are left out: nothing in the program reads them. *)
Inductive Node : Type :=
| Ident (Name : string)
| Lit (lit : BasicLit)
| Import (spec : ImportSpec)
| SelectorExpr (X : Node) (Sel : string)
| StarExpr (X : Node)
| Field (Names : list string) (Type_ : option Node) (Tag : option BasicLit)
| FieldList (List_ : list Node)
| StructType (Fields : Node)
| FuncType (TypeParams : option Node) (Params : option Node) (Results : option Node)
| TypeSpec (Name : string) (TypeParams : option Node) (Type_ : Node)
| GenDecl (Tok : token.Token) (Specs : list Node)
| FuncDecl (Recv : option Node) (Name : string) (Type_ : Node) (Body : option Node)
| BlockStmt (List_ : list Node)
| DeclStmt (Decl : Node)
| ReturnStmt (Results : list Node)
| Other (children : list Node).

(** [*ast.File]: package name, top-level declarations, and the imports
    of the file (the import specs that also sit in the import
    declarations of [Decls]). *)
Record File : Type := {
  Name : string;
  Decls : list Node;
  Imports : list ImportSpec
}.

(** [ast.NewIdent]. *)
Definition NewIdent (name : string) : Node := Ident name.

(** What the function given to [ast.Inspect] is called with: the file,
    a node below it, or nil (after the children of a node). *)
Inductive Visited : Type :=
| VFile (f : File)
| VNode (n : Node)
| VNil.

Definition optNode (o : option Node) : list Node :=
  match o with Some n => [n] | None => [] end.

Definition optLit (o : option BasicLit) : list Node :=
  match o with Some b => [Lit b] | None => [] end.

Definition optIdent (o : option string) : list Node :=
  match o with Some x => [Ident x] | None => [] end.

(** The children of a node, in the order [ast.Walk] visits them. *)
Definition children (n : Node) : list Node :=
  match n with
  | Ident _ | Lit _ => []
  | Import spec => optIdent (LocalName spec) ++ [Lit (Path spec)]
  | SelectorExpr X Sel => [X; Ident Sel]
  | StarExpr X => [X]
  | Field Names Type_ Tag => map Ident Names ++ optNode Type_ ++ optLit Tag
  | FieldList l => l
  | StructType Fields => [Fields]
  | FuncType TypeParams Params Results =>
      optNode TypeParams ++ optNode Params ++ optNode Results
  | TypeSpec Name TypeParams Type_ => Ident Name :: optNode TypeParams ++ [Type_]
  | GenDecl _ Specs => Specs
  | FuncDecl Recv Name Type_ Body =>
      optNode Recv ++ Ident Name :: Type_ :: optNode Body
  | BlockStmt l => l
  | DeclStmt Decl => [Decl]
  | ReturnStmt Results => Results
  | Other l => l
  end.

(** [Reach prune n m]: [m] is [n], or lies below [n] on a path whose
    nodes above [m] are not pruned. *)
Inductive Reach (prune : Node -> bool) : Node -> Node -> Prop :=
| Reach_self : forall n, Reach prune n n
| Reach_child : forall n c m,
    prune n = false -> In c (children n) -> Reach prune c m -> Reach prune n m.

(** [Desc n m]: [m] is [n] or lies below it. *)
Definition Desc : Node -> Node -> Prop := Reach (fun _ => false).

(** The nodes of the tree of a file that a traversal reaches when it
    does not descend below the nodes [prune] selects. *)
Definition InFileUpTo (prune : Node -> bool) (file : File) (m : Node) : Prop :=
  exists c, In c (Ident (Name file) :: Decls file) /\ Reach prune c m.

(** [InFile file m]: [m] is a node of the tree of [file]. *)
Definition InFile : File -> Node -> Prop := InFileUpTo (fun _ => false).

Section Inspect.
Context {S : Type}.
(** The function passed to [ast.Inspect]. It is a closure over local
    variables of its caller; [S] is the type of what it assigns to,
    threaded through the traversal. It returns whether to descend. *)
Variable f : Visited -> S -> bool * S.

(** A node without children: [f(node)], then [f(nil)] if it said to
    descend. *)
Definition leaf (n : Node) (s : S) : S :=
  let (descend, s1) := f (VNode n) s in
  if descend then snd (f VNil s1) else s1.

Definition leaves (l : list Node) (s : S) : S :=
  fold_left (fun s n => leaf n s) l s.

(** [ast.Walk(inspector(f), n)]: call [f(n)]; if it returns true, walk
    the children of [n] in order and then call [f(nil)]. *)
Fixpoint Walk (n : Node) (s : S) {struct n} : S :=
  let (descend, s1) := f (VNode n) s in
  if descend then
    let walkList := fold_left (fun s c => Walk c s) in
    let walkOpt := fun (o : option Node) s =>
                     match o with Some c => Walk c s | None => s end in
    let s2 :=
      match n with
      | Ident _ | Lit _ => s1
      | Import spec =>
          let s := leaves (optIdent (LocalName spec)) s1 in
          leaf (Lit (Path spec)) s
      | SelectorExpr X Sel =>
          let s := Walk X s1 in
          leaf (Ident Sel) s
      | StarExpr X => Walk X s1
      | Field Names Type_ Tag =>
          let s := leaves (map Ident Names) s1 in
          let s := walkOpt Type_ s in
          leaves (optLit Tag) s
      | FieldList l => walkList l s1
      | StructType Fields => Walk Fields s1
      | FuncType TypeParams Params Results =>
          let s := walkOpt TypeParams s1 in
          let s := walkOpt Params s in
          walkOpt Results s
      | TypeSpec Name TypeParams Type_ =>
          let s := leaf (Ident Name) s1 in
          let s := walkOpt TypeParams s in
          Walk Type_ s
      | GenDecl _ Specs => walkList Specs s1
      | FuncDecl Recv Name Type_ Body =>
          let s := walkOpt Recv s1 in
          let s := leaf (Ident Name) s in
          let s := Walk Type_ s in
          walkOpt Body s
      | BlockStmt l => walkList l s1
      | DeclStmt Decl => Walk Decl s1
      | ReturnStmt Results => walkList Results s1
      | Other l => walkList l s1
      end in
    snd (f VNil s2)
  else s1.

Definition walkList (l : list Node) (s : S) : S :=
  fold_left (fun s c => Walk c s) l s.

(** [ast.Inspect(file, f)] for a [*ast.File]: [f(file)], then the
    package name, then the declarations ([range file.Decls] fixes the
    slice it iterates over when the loop starts), then [f(nil)]. *)
Definition Inspect (file : File) (s : S) : S :=
  let (descend, s1) := f (VFile file) s in
  if descend then
    let s := leaf (Ident (Name file)) s1 in
    let s := walkList (Decls file) s in
    snd (f VNil s)
  else s1.

End Inspect.

(** The function that always descends and appends [g n] for every node
    [n] it is called with. *)
Definition gather {A : Type} (g : Node -> list A) (v : Visited) (acc : list A)
  : bool * list A :=
  match v with
  | VNode n => (true, acc ++ g n)
  | _ => (true, acc)
  end.

(** The nodes of a file in the order [ast.Inspect] calls its function
    with them when that function always returns true. *)
Definition nodes (file : File) : list Node :=
  Inspect (gather (fun n => [n])) file [].

End ast.

Import ast.

(** ** Package [sort] *)

Module sort.

Fixpoint insert (x : string) (l : list string) : list string :=
  match l with
  | [] => [x]
  | y :: l' => if String.leb x y then x :: l else y :: insert x l'
  end.

(** [sort.Strings]: sorts a slice of strings in increasing order, the
    order being Go's [<] on strings (bytewise lexicographic). Strings
    that compare equal are equal, so every sorting algorithm gives the
    same slice; insertion sort stands for the library's. *)
Definition Strings (x : list string) : list string :=
  fold_right insert [] x.

End sort.

(** ** Package [text/template]: the templates the program uses *)

Module template.

(** Inside [{{ range . }}]: literal text, or the action [{{ . }}]. *)
Inductive Action : Type :=
| Text (s : string)
| Dot.

Inductive TNode : Type :=
| Plain (a : Action)
| Range (body : list Action).

Definition Template : Type := list TNode.

Definition concat (l : list string) : string := String.concat "" l.

(** An action run with the dot set to a string. *)
Definition execAction (dot : string) (a : Action) : string :=
  match a with
  | Text s => s
  | Dot => dot
  end.

(** A node run with the dot set to a slice of strings: [{{ . }}] prints
    the slice as [fmt] does, [{{ range . }}] runs its body once per
    element, in order, with the dot set to the element. *)
Definition execNode (data : list string) (n : TNode) : string :=
  match n with
  | Plain (Text s) => s
  | Plain Dot => "[" ++ String.concat " " data ++ "]"
  | Range body => concat (map (fun dot => concat (map (execAction dot) body)) data)
  end.

(** The text [tmpl.Execute(w, data)] writes to [w]. *)
Definition Execute (tmpl : Template) (data : list string) : string :=
  concat (map (execNode data) tmpl).

End template.

(** ** Package [languages]: the Go processor *)

(** Errors. [LibError] is an error value made by the Go library
    ([go/parser], [go/printer], [os], [text/template]); [Errorf msg err]
    is [fmt.Errorf(msg + ": %w", err)].

    Modelled from the spec: [ErrFlatBuffersNotImported] is declared in a
    file of the package that is not among the sources; it is the sentinel
    error value a caller compares with. *)
Inductive error : Type :=
| ErrFlatBuffersNotImported
| LibError (msg : string)
| Errorf (msg : string) (err : error).

(** [GoProcessor] handles post-processing of Go FlatBuffer files. *)
Record GoProcessor : Type := { flatbuffers : list string }.

(** [NewGoProcessor] creates a new Go processor. *)
Definition NewGoProcessor : GoProcessor := {| flatbuffers := [] |}.

(** [Extension] returns the file extension for the language. *)
Definition Extension : string := ".go".

Definition FlatDataHelperFileName : string := "flatdatas_helper.go".

(** [hasFlatBuffersImport] checks if the file imports the flatbuffers
    package. *)
Definition hasFlatBuffersImport (file : File) : bool :=
  existsb (fun imp =>
             let packagePath := strings.Trim (Value (Path imp)) "034"%char in
             String.eqb packagePath "github.com/google/flatbuffers/go")
          (Imports file).

(** [usesFlatBuffersTable] checks if the file uses the flatbuffers.Table
    type. The closure assigns to [result]. *)
Definition usesFlatBuffersTable (file : File) : bool :=
  Inspect (fun n result =>
             match n with
             | VNode (Field _ (Some (SelectorExpr (Ident x) sel)) _) =>
                 if String.eqb x "flatbuffers" && String.eqb sel "Table"
                 then (false, true)
                 else (true, result)
             | _ => (true, result)
             end)
          file false.

Definition isFlatBufferFile (file : File) : bool :=
  (* First check if the file imports the flatbuffers package *)
  if negb (hasFlatBuffersImport file) then false
  else usesFlatBuffersTable file.

(** The closure assigns to [methodFound]. *)
Definition hasNameMethod (tree : File) : bool :=
  Inspect (fun n methodFound =>
             match n with
             | VNil => (false, methodFound)
             | VNode (FuncDecl _ name _ _) =>
                 if String.eqb name "Name"
                 then (false, true)
                 else (false, methodFound)
             | _ => (true, methodFound)
             end)
          tree false.

(** [fmt.Sprintf("\"%s\"", name)]. *)
Definition quoted (name : string) : string := dquote ++ name ++ dquote.

(** The method [patchAST] creates for the type named [name]. *)
Definition newMethod (name : string) : Node :=
  FuncDecl
    (Some (FieldList [Field [] (Some (StarExpr (NewIdent name))) None]))
    "Name"
    (FuncType None
       (Some (FieldList []))
       (Some (FieldList [Field [] (Some (NewIdent "string")) None])))
    (Some (BlockStmt [ReturnStmt [NewIdent (quoted name)]])).

(** The body of [for _, spec := range genDecl.Specs]: a type spec whose
    type is a struct type appends the new method to [tree.Decls]. *)
Definition patchSpec (decls : list Node) (spec : Node) : list Node :=
  match spec with
  | TypeSpec name _ (StructType _) => decls ++ [newMethod name]
  | _ => decls
  end.

(** The function [patchAST] passes to [ast.Inspect]; it assigns to
    [tree.Decls]. *)
Definition patchVisit (n : Visited) (decls : list Node) : bool * list Node :=
  match n with
  | VNode (GenDecl token.TYPE specs) => (true, fold_left patchSpec specs decls)
  | _ => (true, decls)
  end.

(** [patchAST] changes the tree in place and returns an error; here it
    returns the tree after the call and the error. *)
Definition patchAST (tree : File) : File * option error :=
  if hasNameMethod tree then (tree, None)
  else
    let decls := Inspect patchVisit tree (Decls tree) in
    ({| Name := Name tree; Decls := decls; Imports := Imports tree |}, None).

(** The template of [flatdatas_helper.go], as [template.Parse] reads the
    constant [flatbufferCode]: [{{- range . }}] and [{{- end }}] trim the
    white space before them, so each element contributes a line break, a
    tab and its entry, and the closing brace follows on its own line. *)
Definition flatbufferCode_head : string :=
  "package flatdata" ++ newline ++ newline ++
  "import (" ++ newline ++
  tab ++ dquote ++ "reflect" ++ dquote ++ newline ++
  ")" ++ newline ++ newline ++
  "var fbs = map[string]reflect.Type{".

Definition flatbufferCode_tail : string :=
  newline ++ "}" ++ newline ++ newline ++
  "func GetFlatDataByName(name string) any {" ++ newline ++
  tab ++ "if data, ok := fbs[name]; ok {" ++ newline ++
  tab ++ tab ++ "return reflect.New(data).Interface()" ++ newline ++
  tab ++ "}" ++ newline ++
  tab ++ "return nil" ++ newline ++
  "}" ++ newline.

Definition flatbufferCode : template.Template :=
  [ template.Plain (template.Text flatbufferCode_head);
    template.Range [ template.Text (newline ++ tab ++ dquote);
                     template.Dot;
                     template.Text (dquote ++ ": reflect.TypeOf((*");
                     template.Dot;
                     template.Text ")(nil)).Elem()," ];
    template.Plain (template.Text flatbufferCode_tail) ].

(** The file system: the content of the file at each path. *)
Definition FS : Type := string -> option string.

Definition writeFile (fs : FS) (path data : string) : FS :=
  fun p => if String.eqb p path then Some data else fs p.

Section Processor.

(** The world outside the program. *)

(** [go/parser]: the tree of a source text, or a syntax error. *)
Variable parser_parse : string -> error + File.
(** [go/printer]: the text of a tree, or the printer's error. *)
Variable printer_print : File -> error + string.
(** [filepath.Join]. *)
Variable filepath_Join : string -> string -> string.
(** Whether [os.Create] of a path fails on this file system. *)
Variable create_fault : FS -> string -> option error.
(** Whether writing to the file at a path fails, and after how many
    bytes. *)
Variable write_fault : string -> option (nat * error).

(** [parser.ParseFile(fset, filePath, nil, parser.ParseComments)] reads
    the file and parses it. *)
Definition parser_ParseFile (fs : FS) (filePath : string) : error + File :=
  match fs filePath with
  | None => inl (LibError ("open " ++ filePath))
  | Some src => parser_parse src
  end.

(** [os.Create] creates or truncates the file. *)
Definition os_Create (fs : FS) (path : string) : error + FS :=
  match create_fault fs path with
  | Some err => inl err
  | None => inr (writeFile fs path "")
  end.

(** Writing [data] to the file just created at [path]. *)
Definition io_Write (fs : FS) (path data : string) : FS * option error :=
  match write_fault path with
  | Some (n, err) => (writeFile fs path (substring 0 n data), Some err)
  | None => (writeFile fs path data, None)
  end.

(** [printer.Fprint(f, fset, tree)]. *)
Definition printer_Fprint (fs : FS) (path : string) (tree : File) : FS * option error :=
  match printer_print tree with
  | inl err => (fs, Some err)
  | inr text => io_Write fs path text
  end.

(** [ProcessFile]: the processor and the file system after the call,
    and the error returned. *)
Definition ProcessFile (p : GoProcessor) (filePath : string) (fs : FS)
  : GoProcessor * FS * option error :=
  match parser_ParseFile fs filePath with
  | inl err => (p, fs, Some (Errorf ("failed to parse file " ++ filePath) err))
  | inr tree =>
      (* Check the imports for flatbuffers *)
      if negb (isFlatBufferFile tree) then (p, fs, Some ErrFlatBuffersNotImported)
      else
        let p := {| flatbuffers :=
                      flatbuffers p ++
                      [strings.TrimSuffix (filepath.Base filePath) Extension] |} in
        (* Modify the AST to add a Name() method to every struct type *)
        match patchAST tree with
        | (_, Some patchErr) => (p, fs, Some (Errorf "failed to patch AST" patchErr))
        | (tree, None) =>
            match os_Create fs filePath with
            | inl err => (p, fs, Some (Errorf "failed to create file" err))
            | inr fs =>
                (* Print the AST *)
                match printer_Fprint fs filePath tree with
                | (fs, Some writeErr) =>
                    (p, fs, Some (Errorf "failed to print AST" writeErr))
                | (fs, None) => (p, fs, None)
                end
            end
        end
  end.

Definition PreProcess (p : GoProcessor) (dir : string) (fs : FS)
  : GoProcessor * FS * option error :=
  (p, fs, None).

(** [PostProcess] writes [flatdatas_helper.go]. Parsing the constant
    template does not fail. *)
Definition PostProcess (p : GoProcessor) (outputDir : string) (fs : FS)
  : GoProcessor * FS * option error :=
  let path := filepath_Join outputDir FlatDataHelperFileName in
  match os_Create fs path with
  | inl osErr => (p, fs, Some (Errorf "failed to create file" osErr))
  | inr fs =>
      let tmpl := flatbufferCode in
      (* Execute the template. Output the result to the file *)
      let p := {| flatbuffers := sort.Strings (flatbuffers p) |} in
      match io_Write fs path (template.Execute tmpl (flatbuffers p)) with
      | (fs, Some executeErr) =>
          (p, fs, Some (Errorf "failed to execute template" executeErr))
      | (fs, None) => (p, fs, None)
      end
  end.

End Processor.

(** ** The revision in [languages/go.go]

    The same processor before the patch was added: its [ProcessFile]
    parses, runs the detector and records the name, and writes nothing. *)

Module go_go.

Definition ProcessFile (parser_parse : string -> error + File)
  (p : GoProcessor) (filePath : string) (fs : FS)
  : GoProcessor * FS * option error :=
  match parser_ParseFile parser_parse fs filePath with
  | inl err => (p, fs, Some (Errorf ("failed to parse file " ++ filePath) err))
  | inr tree =>
      (* Check the imports for flatbuffers *)
      if negb (isFlatBufferFile tree) then (p, fs, Some ErrFlatBuffersNotImported)
      else
        ({| flatbuffers :=
              flatbuffers p ++
              [strings.TrimSuffix (filepath.Base filePath) Extension] |},
         fs, None)
  end.

End go_go.

(** ** Vocabulary of the statements *)

(** A field whose type is the qualified name [flatbuffers.Table]. *)
Definition isTableField (n : Node) : bool :=
  match n with
  | Field _ (Some (SelectorExpr (Ident x) sel)) _ =>
      String.eqb x "flatbuffers" && String.eqb sel "Table"
  | _ => false
  end.

Definition isFuncDecl (n : Node) : bool :=
  match n with
  | FuncDecl _ _ _ _ => true
  | _ => false
  end.

(** A function or method declaration named [Name], with any receiver or
    none. *)
Definition isNameFunc (n : Node) : bool :=
  match n with
  | FuncDecl _ name _ _ => String.eqb name "Name"
  | _ => false
  end.

(** The file has an import whose path literal, double quotes stripped, is
    the module path of the FlatBuffers runtime. *)
Definition importsFlatBuffers (file : File) : Prop :=
  exists imp, In imp (Imports file) /\
    strings.Trim (Value (Path imp)) "034"%char = "github.com/google/flatbuffers/go".

(** Some field in the tree of the file has the type [flatbuffers.Table]. *)
Definition hasTableField (file : File) : Prop :=
  exists names tag,
    InFile file (Field names (Some (SelectorExpr (Ident "flatbuffers") "Table")) tag).

(** The nodes of the subtree of [n], in traversal order. *)
Definition below (n : Node) : list Node := Walk (gather (fun n => [n])) n [].

(** The names of the struct types among type specs. *)
Definition structNames (specs : list Node) : list string :=
  flat_map (fun spec => match spec with
                        | TypeSpec name _ (StructType _) => [name]
                        | _ => []
                        end) specs.

(** The struct types a node declares, when it is a type declaration. *)
Definition declaredStructs (n : Node) : list string :=
  match n with
  | GenDecl token.TYPE specs => structNames specs
  | _ => []
  end.

(** The struct types declared anywhere in the file, at top level or
    inside a function body, in source order. *)
Definition structTypes (file : File) : list string :=
  flat_map declaredStructs (nodes file).

(** The struct types declared at top level. *)
Definition topLevelStructTypes (file : File) : list string :=
  flat_map declaredStructs (Decls file).

(** The names of all types a file declares. *)
Definition typeNames (file : File) : list string :=
  flat_map (fun n => match n with
                     | GenDecl token.TYPE specs =>
                         flat_map (fun spec => match spec with
                                               | TypeSpec name _ _ => [name]
                                               | _ => []
                                               end) specs
                     | _ => []
                     end) (nodes file).

Definition withDecls (tree : File) (decls : list Node) : File :=
  {| Name := Name tree; Decls := decls; Imports := Imports tree |}.


(** The order of [sort.Strings]. *)
Definition lex_le (a b : string) : Prop := String.leb a b = true.

(** The line of the registry for one name:
    ["N": reflect.TypeOf(( *N)(nil)).Elem(),] after a line break and a tab. *)
Definition registryEntry (name : string) : string :=
  newline ++ tab ++ dquote ++ name ++ dquote ++
  ": reflect.TypeOf((*" ++ name ++ ")(nil)).Elem(),".

(** The text of [flatdatas_helper.go] for a list of keys. *)
Definition registryText (keys : list string) : string :=
  flatbufferCode_head ++ template.concat (map registryEntry keys) ++ flatbufferCode_tail.

(** The name [ProcessFile] records for a file. *)
Definition recordedName (filePath : string) : string :=
  strings.TrimSuffix (filepath.Base filePath) Extension.

(** ** Example files *)

(** [_tab flatbuffers.Table]. *)
Definition tableField : Node :=
  Field ["_tab"] (Some (SelectorExpr (Ident "flatbuffers") "Table")) None.

(** [import flatbuffers "github.com/google/flatbuffers/go"]. *)
Definition flatbuffersImport : ImportSpec :=
  {| LocalName := Some "flatbuffers";
     Path := {| Value := dquote ++ "github.com/google/flatbuffers/go" ++ dquote |} |}.

(** [type name struct { _tab flatbuffers.Table }]. *)
Definition tableType (name : string) : Node :=
  GenDecl token.TYPE [TypeSpec name None (StructType (FieldList [tableField]))].

(** A generated file: the import and one table type. *)
Definition generatedFile (typeName : string) : File :=
  {| Name := "flatdata";
     Decls := [GenDecl token.IMPORT [Import flatbuffersImport]; tableType typeName];
     Imports := [flatbuffersImport] |}.

(** [Item.go] as the schema compiler writes it. *)
Definition Item_go : File := generatedFile "Item".

(** [Helper.go]: [package flatdata; func Helper() {}], no import. *)
Definition Helper_go : File :=
  {| Name := "flatdata";
     Decls := [FuncDecl None "Helper" (FuncType None (Some (FieldList [])) None)
                 (Some (BlockStmt []))];
     Imports := [] |}.

(** A file with the import and no field of type [flatbuffers.Table]:
    [type Item struct { id int }]. *)
Definition ImportOnly_go : File :=
  {| Name := "flatdata";
     Decls := [GenDecl token.IMPORT [Import flatbuffersImport];
               GenDecl token.TYPE
                 [TypeSpec "Item" None
                    (StructType (FieldList [Field ["id"] (Some (Ident "int")) None]))]];
     Imports := [flatbuffersImport] |}.

(** A file with the table type and no import. *)
Definition TableOnly_go : File :=
  {| Name := "flatdata"; Decls := [tableType "Item"]; Imports := [] |}.

(** A generated file to which a plain function [func Name() {}], with no
    receiver, was added. *)
Definition PlainName_go : File :=
  {| Name := "flatdata";
     Decls := [GenDecl token.IMPORT [Import flatbuffersImport];
               tableType "Item";
               FuncDecl None "Name" (FuncType None (Some (FieldList [])) None)
                 (Some (BlockStmt []))];
     Imports := [flatbuffersImport] |}.

(** A record file that also has [type Kind int] and a function whose
    body declares struct types under the names of the top-level types:
    [func helper() { type Item struct{}; type Kind struct{} }]. *)
Definition Shadow_go : File :=
  {| Name := "flatdata";
     Decls := [GenDecl token.IMPORT [Import flatbuffersImport];
               tableType "Item";
               GenDecl token.TYPE [TypeSpec "Kind" None (Ident "int")];
               FuncDecl None "helper" (FuncType None (Some (FieldList [])) None)
                 (Some (BlockStmt
                    [DeclStmt (GenDecl token.TYPE
                       [TypeSpec "Item" None (StructType (FieldList []))]);
                     DeclStmt (GenDecl token.TYPE
                       [TypeSpec "Kind" None (StructType (FieldList []))])]))];
     Imports := [flatbuffersImport] |}.

(** A world for the examples: every file exists, the parser reads every
    text as the given tree, the printer writes the name of the package
    followed by the number of declarations, and nothing fails. *)
Definition demo_fs : FS := fun _ => Some "source".
Definition demo_parse (tree : File) : string -> error + File := fun _ => inr tree.
Definition demo_print : File -> error + string :=
  fun tree => inr (String.append (Name tree) (String.concat "" (map (fun _ => ";") (Decls tree)))).
Definition demo_Join (dir name : string) : string := String.append dir (String.append "/" name).
Definition no_create_fault : FS -> string -> option error := fun _ _ => None.
Definition no_write_fault : string -> option (nat * error) := fun _ => None.
(** A disk on which no file can be created. *)
Definition read_only : FS -> string -> option error :=
  fun _ _ => Some (LibError "permission denied").

(** ** Vocabulary of the further properties *)

(** No function declaration lies below a top-level declaration, as in
    every tree the Go parser builds: [FuncDecl] is a top-level declaration
    only. *)
Definition funcsOnlyAtTopLevel (tree : File) : bool :=
  forallb (fun d =>
             forallb (fun c => forallb (fun m => negb (isFuncDecl m)) (below c))
                     (children d))
          (Decls tree).

(** [n] copies of a byte. *)
Fixpoint copies (c : ascii) (n : nat) : string :=
  match n with
  | O => EmptyString
  | S n' => String c (copies c n')
  end.

(** [n] double quotes. *)
Definition quotes (n : nat) : string := copies "034"%char n.

(** The string has no path separator. *)
Fixpoint noSeparator (s : string) : bool :=
  match s with
  | EmptyString => true
  | String c r => negb (filepath.IsPathSeparator c) && noSeparator r
  end.

(** A printer that rejects every tree. *)
Definition failing_print : File -> error + string :=
  fun _ => inl (LibError "printer: unsupported node").

(** A disk on which every write stops after four bytes. *)
Definition disk_full : string -> option (nat * error) :=
  fun _ => Some (4, LibError "no space left on device").

(** ** Vocabulary of the detector's two signals *)

(** The string without its last byte, and that byte. *)
Fixpoint unsnoc (s : string) : option (string * ascii) :=
  match s with
  | EmptyString => None
  | String c r =>
      match unsnoc r with
      | None => Some (EmptyString, c)
      | Some (init, l) => Some (String c init, l)
      end
  end.

(** The text has no double quote. *)
Fixpoint noQuote (s : string) : bool :=
  match s with
  | EmptyString => true
  | String c r => negb (Ascii.eqb c "034"%char) && noQuote r
  end.

(** The text has no backslash, so no escape sequence. *)
Fixpoint noBackslash (s : string) : bool :=
  match s with
  | EmptyString => true
  | String c r => negb (Ascii.eqb c "092"%char) && noBackslash r
  end.

(** The text of a Go string literal: what stands between the double
    quotes of an interpreted literal or between the back quotes of a raw
    one. It is the value of a raw literal, and of an interpreted literal
    without escape sequences. *)
Definition literalText (lit : string) : option string :=
  match lit with
  | EmptyString => None
  | String q rest =>
      if Ascii.eqb q "034"%char || Ascii.eqb q "096"%char then
        match unsnoc rest with
        | Some (text, l) => if Ascii.eqb l q then Some text else None
        | None => None
        end
      else None
  end.

(** Signal 1, by the meaning of the import: the file imports the package
    at the module path of the FlatBuffers runtime. *)
Definition importsPackage (file : File) : bool :=
  existsb (fun imp =>
             match literalText (Value (Path imp)) with
             | Some text => String.eqb text "github.com/google/flatbuffers/go"
             | None => false
             end)
          (Imports file).

(** An interpreted string literal without escape sequences: double
    quotes around a text with no double quote and no backslash. Its value
    is that text. *)
Definition isInterpreted (lit : string) : bool :=
  match lit with
  | EmptyString => false
  | String q rest =>
      Ascii.eqb q "034"%char &&
      match unsnoc rest with
      | Some (text, l) => Ascii.eqb l "034"%char && noQuote text && noBackslash text
      | None => false
      end
  end.

(** Every import path of the file is written as an interpreted string
    literal without escape sequences, as generated code writes it. *)
Definition importsAreInterpreted (file : File) : bool :=
  forallb (fun imp => isInterpreted (Value (Path imp))) (Imports file).

(** Signal 2 as the spec words it: some field of a struct type has the
    type [flatbuffers.Table]. *)
Definition hasStructTableField (file : File) : bool :=
  existsb (fun n =>
             match n with
             | StructType (FieldList fields) => existsb isTableField fields
             | _ => false
             end)
          (nodes file).

(** [name flatbuffers.Table]. *)
Definition tableField' (name : string) : Node :=
  Field [name] (Some (SelectorExpr (Ident "flatbuffers") "Table")) None.

(** A file with the import and no struct type, whose only use of
    [flatbuffers.Table] is the type of a parameter:
    [func Release(t flatbuffers.Table) {}]. *)
Definition ParamOnly_go : File :=
  {| Name := "flatdata";
     Decls := [GenDecl token.IMPORT [Import flatbuffersImport];
               FuncDecl None "Release"
                 (FuncType None (Some (FieldList [tableField' "t"])) None)
                 (Some (BlockStmt []))];
     Imports := [flatbuffersImport] |}.

(** [import flatbuffers `github.com/google/flatbuffers/go`], the path
    written as a raw string literal. *)
Definition rawImport : ImportSpec :=
  {| LocalName := Some "flatbuffers";
     Path := {| Value := "`github.com/google/flatbuffers/go`" |} |}.

(** A generated file whose import path is written as a raw string. *)
Definition RawImport_go : File :=
  {| Name := "flatdata";
     Decls := [GenDecl token.IMPORT [Import rawImport]; tableType "Item"];
     Imports := [rawImport] |}.

(** ** An already patched file and its texts *)

(** [func ( *T) Name() string { return "T" }] as the parser reads it: the
    result is a string literal. *)
Definition parsedMethod (name : string) : Node :=
  FuncDecl
    (Some (FieldList [Field [] (Some (StarExpr (Ident name))) None]))
    "Name"
    (FuncType None
       (Some (FieldList []))
       (Some (FieldList [Field [] (Some (Ident "string")) None])))
    (Some (BlockStmt [ReturnStmt [Lit {| Value := quoted name |}]])).

(** [Item.go] after a run of the tool, as the parser reads it. *)
Definition ItemPatched_go : File :=
  {| Name := "flatdata";
     Decls := Decls Item_go ++ [parsedMethod "Item"];
     Imports := [flatbuffersImport] |}.

(** The patched [Item.go] with the package clause written with three
    spaces, and as the printer writes it, with one. *)
Definition Item_declarations_text : string :=
  newline ++ newline ++
  "import flatbuffers " ++ dquote ++ "github.com/google/flatbuffers/go" ++ dquote ++
  newline ++ newline ++
  "type Item struct {" ++ newline ++
  tab ++ "_tab flatbuffers.Table" ++ newline ++
  "}" ++ newline ++ newline ++
  "func (*Item) Name() string { return " ++ dquote ++ "Item" ++ dquote ++ " }" ++
  newline.

Definition spaced_source : string := "package   flatdata" ++ Item_declarations_text.
Definition printed_source : string := "package flatdata" ++ Item_declarations_text.

(** A world for that file: it holds [spaced_source], the parser reads
    both texts as [ItemPatched_go], the printer writes [printed_source]. *)
Definition spaced_fs : FS := fun _ => Some spaced_source.
Definition parse_patched : string -> error + File := fun _ => inr ItemPatched_go.
Definition print_canonical : File -> error + string := fun _ => inr printed_source.

(** A parser that reads the text ["source"] as [Item.go] and any other
    text as the patched [Item.go]. *)
Definition reparse : string -> error + File :=
  fun src => if String.eqb src "source" then inr Item_go else inr ItemPatched_go.

(** * Properties *)

(** ** Traversal *)

Section NodeInduction.
Variable P : Node -> Prop.
Hypothesis step : forall n, Forall P (children n) -> P n.

Lemma Forall_leaf_idents : forall names, Forall P (map Ident names).
Proof.
  induction names as [|x names IH]; simpl; constructor;
    [apply step; constructor | exact IH].
Qed.

Lemma Node_children_ind : forall n, P n.
Proof.
  assert (Hid : forall x, P (Ident x)) by (intros; apply step; constructor).
  assert (Hlit : forall b, P (Lit b)) by (intros; apply step; constructor).
  assert (Hol : forall o, Forall P (optLit o)) by (intros [b|]; simpl; auto).
  assert (Hoi : forall o, Forall P (optIdent o)) by (intros [b|]; simpl; auto).
  fix IH 1. intros n. apply step.
  pose (opt := fun o => match o with Some c => P c | None => True end).
  assert (Hopt : forall o, opt o -> Forall P (optNode o))
    by (intros [c|] H; simpl; auto).
  destruct n as [| | | | | | | | | | | | | | |others]; simpl.
  - constructor.
  - constructor.
  - apply Forall_app. split; [apply Hoi | auto].
  - constructor; [apply IH | auto].
  - constructor; [apply IH | constructor].
  - apply Forall_app. split; [apply Forall_leaf_idents|].
    apply Forall_app. split; [|apply Hol].
    apply Hopt. destruct Type_; simpl; [apply IH | exact I].
  - revert List_. fix IHl 1. intros [|x l]; constructor; [apply IH | apply IHl].
  - constructor; [apply IH | constructor].
  - apply Forall_app. split; [|apply Forall_app; split]; apply Hopt.
    + destruct TypeParams; simpl; [apply IH | exact I].
    + destruct Params; simpl; [apply IH | exact I].
    + destruct Results; simpl; [apply IH | exact I].
  - constructor; [apply Hid|].
    apply Forall_app. split; [|constructor; [apply IH | constructor]].
    apply Hopt. destruct TypeParams; simpl; [apply IH | exact I].
  - revert Specs. fix IHl 1. intros [|x l]; constructor; [apply IH | apply IHl].
  - apply Forall_app. split.
    + apply Hopt. destruct Recv; simpl; [apply IH | exact I].
    + constructor; [apply Hid|]. constructor; [apply IH|].
      apply Hopt. destruct Body; simpl; [apply IH | exact I].
  - revert List_. fix IHl 1. intros [|x l]; constructor; [apply IH | apply IHl].
  - constructor; [apply IH | constructor].
  - revert Results. fix IHl 1. intros [|x l]; constructor; [apply IH | apply IHl].
  - revert others. fix IHl 1. intros [|x l]; constructor; [apply IH | apply IHl].
Qed.
End NodeInduction.

Section WalkFacts.
Context {S : Type} (f : Visited -> S -> bool * S).

Lemma walkList_app l1 l2 (s : S) :
  walkList f (l1 ++ l2) s = walkList f l2 (walkList f l1 s).
Proof. unfold walkList. apply fold_left_app. Qed.

Lemma walkList_cons c l (s : S) :
  walkList f (c :: l) s = walkList f l (Walk f c s).
Proof. reflexivity. Qed.

Lemma walkList_idents names (s : S) :
  walkList f (map Ident names) s = leaves f (map Ident names) s.
Proof.
  revert s. induction names as [|x names IH]; intros s; simpl; [reflexivity|].
  unfold walkList, leaves in *. simpl. apply IH.
Qed.

Lemma walkList_optLit o (s : S) :
  walkList f (optLit o) s = leaves f (optLit o) s.
Proof. destruct o; reflexivity. Qed.

Lemma walkList_optIdent o (s : S) :
  walkList f (optIdent o) s = leaves f (optIdent o) s.
Proof. destruct o; reflexivity. Qed.

Lemma walkList_optNode o (s : S) :
  walkList f (optNode o) s = match o with Some c => Walk f c s | None => s end.
Proof. destruct o; reflexivity. Qed.

(** One step of [ast.Walk], with the children as a list. *)
Lemma Walk_eq n (s : S) :
  Walk f n s =
    let (descend, s1) := f (VNode n) s in
    if descend then snd (f VNil (walkList f (children n) s1)) else s1.
Proof.
  destruct n; simpl; destruct (f _ s) as [[|] s1]; try reflexivity;
    f_equal; f_equal;
    repeat (rewrite ?walkList_app, ?walkList_cons, ?walkList_idents,
             ?walkList_optLit, ?walkList_optIdent, ?walkList_optNode);
    try reflexivity.
Qed.

Lemma Inspect_eq file (s : S) :
  Inspect f file s =
    let (descend, s1) := f (VFile file) s in
    if descend
    then snd (f VNil (walkList f (Ident (Name file) :: Decls file) s1))
    else s1.
Proof. reflexivity. Qed.
End WalkFacts.

(** ** Traversals that look for a node *)

Section Search.
(** [g] sets its state to true at the nodes [p] selects, and does not
    descend below them nor below the nodes [prune] selects. *)
Variables p prune : Node -> bool.
Variable g : Visited -> bool -> bool * bool.
Hypothesis g_node : forall n r,
    g (VNode n) r = if p n then (false, true) else (negb (prune n), r).
Hypothesis g_nil : forall r, snd (g VNil r) = r.
Hypothesis g_file : forall file r, g (VFile file) r = (true, r).

Lemma search_list l :
  Forall (fun n => forall r, Walk g n r = true <->
                             r = true \/ exists m, Reach prune n m /\ p m = true) l ->
  forall r, walkList g l r = true <->
            r = true \/ exists c m, In c l /\ Reach prune c m /\ p m = true.
Proof.
  induction 1 as [|c l Hc _ IH]; intros r.
  - simpl. split; [auto|]. intros [H|(c & m & [] & _)]; exact H.
  - rewrite walkList_cons, IH, Hc. split.
    + intros [[H|(m & Hm & Hp)]|(c' & m & Hin & Hm & Hp)]; auto.
      * right. exists c, m. simpl; auto.
      * right. exists c', m. simpl; auto.
    + intros [H|(c' & m & [Heq|Hin] & Hm & Hp)]; auto.
      * subst c'. left. right. eauto.
      * right. eauto.
Qed.

Lemma search_Walk n : forall r,
    Walk g n r = true <-> r = true \/ exists m, Reach prune n m /\ p m = true.
Proof.
  induction n as [n IH] using Node_children_ind. intros r.
  rewrite Walk_eq, g_node. destruct (p n) eqn:Hp.
  - split; [|reflexivity]. intros _. right. exists n. split; [constructor|exact Hp].
  - destruct (prune n) eqn:Hprune; simpl.
    + split; [auto|]. intros [H|(m & Hm & Hpm)]; [exact H|].
      inversion Hm; subst; congruence.
    + rewrite g_nil, (search_list _ IH). split.
      * intros [H|(c & m & Hin & Hm & Hpm)]; [auto|].
        right. exists m. split; [|exact Hpm]. eapply Reach_child; eauto.
      * intros [H|(m & Hm & Hpm)]; [auto|]. right.
        inversion Hm; subst; [congruence|]. exists c, m. auto.
Qed.

Lemma search_Inspect file r :
  Inspect g file r = true <->
  r = true \/ exists m, InFileUpTo prune file m /\ p m = true.
Proof.
  rewrite Inspect_eq, g_file, g_nil, search_list.
  - unfold InFileUpTo. split.
    + intros [H|(c & m & Hin & Hm & Hp)]; [left; exact H|].
      right. exists m. split; [exists c; split; assumption | exact Hp].
    + intros [H|(m & (c & Hin & Hm) & Hp)]; [left; exact H|].
      right. exists c, m. repeat split; assumption.
  - apply Forall_forall. intros n _. apply search_Walk.
Qed.
End Search.

(** ** The detector *)

Lemma isTableField_spec n :
  isTableField n = true <->
  exists names tag, n = Field names (Some (SelectorExpr (Ident "flatbuffers") "Table")) tag.
Proof.
  split.
  - destruct n as [| | | | |names [ty|] tag| | | | | | | | | |]; try discriminate.
    destruct ty as [| | |X sel| | | | | | | | | | | |]; try discriminate.
    destruct X; try discriminate. simpl.
    rewrite andb_true_iff, !String.eqb_eq. intros [-> ->]. eauto.
  - intros (names & tag & ->). reflexivity.
Qed.

Lemma hasFlatBuffersImport_spec file :
  hasFlatBuffersImport file = true <-> importsFlatBuffers file.
Proof.
  unfold hasFlatBuffersImport, importsFlatBuffers. rewrite existsb_exists.
  split; intros (imp & Hin & H); exists imp; split; auto; apply String.eqb_eq; exact H.
Qed.

Lemma usesFlatBuffersTable_spec file :
  usesFlatBuffersTable file = true <-> hasTableField file.
Proof.
  unfold usesFlatBuffersTable.
  rewrite (search_Inspect isTableField (fun _ => false)).
  - unfold hasTableField, InFile. split.
    + intros [H|(m & Hm & Hp)]; [discriminate|].
      apply isTableField_spec in Hp. destruct Hp as (names & tag & ->). eauto.
    + intros (names & tag & H). right. eexists. split; [exact H|reflexivity].
  - intros n r. destruct (isTableField n) eqn:Hn.
    + apply isTableField_spec in Hn. destruct Hn as (names & tag & ->). reflexivity.
    + destruct n as [| | | | |names [ty|] tag| | | | | | | | | |]; try reflexivity.
      destruct ty as [| | |X sel| | | | | | | | | | | |]; try reflexivity.
      destruct X; try reflexivity. simpl in Hn |- *. rewrite Hn. reflexivity.
  - reflexivity.
  - reflexivity.
Qed.

(** ** Traversals that collect *)

Section Gather.
Context {A : Type}.
Variable h : Visited -> list A -> bool * list A.

Lemma gather_list (sub : Node -> list A) l :
  Forall (fun n => forall acc, Walk h n acc = acc ++ sub n) l ->
  forall acc, walkList h l acc = acc ++ flat_map sub l.
Proof.
  induction 1 as [|c l Hc _ IH]; intros acc; simpl.
  - symmetry. apply app_nil_r.
  - rewrite IH, Hc, app_assoc. reflexivity.
Qed.
End Gather.

Lemma gather_nodes_shift n : forall acc,
    Walk (gather (fun n => [n])) n acc = acc ++ below n.
Proof.
  induction n as [n IH] using Node_children_ind. intros acc.
  unfold below. rewrite !Walk_eq. cbn [gather snd].
  rewrite !(gather_list _ below _ IH). simpl. rewrite <- app_assoc. reflexivity.
Qed.

Lemma below_eq n : below n = n :: flat_map below (children n).
Proof.
  unfold below at 1. rewrite Walk_eq. cbn [gather snd].
  rewrite (gather_list _ below).
  - reflexivity.
  - apply Forall_forall. intros c _. apply gather_nodes_shift.
Qed.

Lemma nodes_eq file : nodes file = flat_map below (Ident (Name file) :: Decls file).
Proof.
  unfold nodes. rewrite Inspect_eq. cbn [gather snd].
  rewrite (gather_list _ below).
  - reflexivity.
  - apply Forall_forall. intros c _. apply gather_nodes_shift.
Qed.

Lemma In_below n : forall m, In m (below n) <-> Desc n m.
Proof.
  induction n as [n IH] using Node_children_ind. intros m.
  rewrite below_eq. simpl. rewrite in_flat_map. split.
  - intros [<-|(c & Hin & Hm)]; [constructor|].
    rewrite Forall_forall in IH. apply (IH c Hin) in Hm.
    eapply Reach_child; eauto.
  - intros H. inversion H; subst; [auto|]. right. exists c. split; [assumption|].
    rewrite Forall_forall in IH. apply IH; assumption.
Qed.

(** [nodes] lists the nodes of the tree of the file. *)
Lemma In_nodes file m : In m (nodes file) <-> InFile file m.
Proof.
  rewrite nodes_eq, in_flat_map. unfold InFile, InFileUpTo.
  split; intros (c & Hin & H); exists c; (split; [exact Hin|]); apply In_below; exact H.
Qed.

Section GatherWalk.
Context {A : Type} (g : Node -> list A).
Variable h : Visited -> list A -> bool * list A.
Hypothesis h_node : forall n acc, h (VNode n) acc = (true, acc ++ g n).
Hypothesis h_nil : forall acc, snd (h VNil acc) = acc.
Hypothesis h_file : forall file acc, h (VFile file) acc = (true, acc).

Lemma gather_Walk n : forall acc, Walk h n acc = acc ++ flat_map g (below n).
Proof.
  induction n as [n IH] using Node_children_ind. intros acc.
  rewrite Walk_eq, h_node, h_nil.
  rewrite (gather_list h (fun c => flat_map g (below c)) _ IH).
  rewrite below_eq. simpl. rewrite <- app_assoc. f_equal. f_equal.
  clear IH. induction (children n) as [|c l IHl]; simpl; [reflexivity|].
  rewrite flat_map_app. f_equal. exact IHl.
Qed.

Lemma gather_Inspect file acc :
  Inspect h file acc = acc ++ flat_map g (nodes file).
Proof.
  rewrite Inspect_eq, h_file, h_nil.
  rewrite (gather_list h (fun c => flat_map g (below c))).
  - rewrite nodes_eq. f_equal.
    induction (Ident (Name file) :: Decls file) as [|c l IHl]; simpl; [reflexivity|].
    rewrite flat_map_app. f_equal. exact IHl.
  - apply Forall_forall. intros c _. apply gather_Walk.
Qed.
End GatherWalk.

(** ** The patch *)

Lemma hasNameMethod_spec tree :
  hasNameMethod tree = true <->
  exists m, InFileUpTo isFuncDecl tree m /\ isNameFunc m = true.
Proof.
  unfold hasNameMethod.
  rewrite (search_Inspect isNameFunc isFuncDecl).
  - split; [intros [H|H]; [discriminate|exact H] | auto].
  - intros n r. destruct n; reflexivity.
  - reflexivity.
  - reflexivity.
Qed.

Lemma hasNameMethod_top_level tree d :
  In d (Decls tree) -> isNameFunc d = true -> hasNameMethod tree = true.
Proof.
  intros Hin Hd. apply hasNameMethod_spec. exists d. split; [|exact Hd].
  exists d. split; [right; exact Hin | constructor].
Qed.

Lemma fold_patchSpec specs : forall decls,
    fold_left patchSpec specs decls = decls ++ map newMethod (structNames specs).
Proof.
  induction specs as [|spec specs IH]; intros decls; simpl.
  - symmetry. apply app_nil_r.
  - rewrite IH, map_app, app_assoc. f_equal. f_equal.
    destruct spec as [| | | | | | | | |name tp ty| | | | | |]; simpl;
      try (symmetry; apply app_nil_r).
    destruct ty; simpl; try (symmetry; apply app_nil_r). reflexivity.
Qed.

Lemma patchVisit_node n decls :
  patchVisit (VNode n) decls = (true, decls ++ map newMethod (declaredStructs n)).
Proof.
  destruct n as [| | | | | | | | | |tok specs| | | | |]; simpl;
    try (rewrite app_nil_r; reflexivity).
  destruct tok; simpl; try (rewrite app_nil_r; reflexivity).
  rewrite fold_patchSpec. reflexivity.
Qed.

Lemma Inspect_patchVisit tree decls :
  Inspect patchVisit tree decls = decls ++ map newMethod (structTypes tree).
Proof.
  rewrite (gather_Inspect (fun n => map newMethod (declaredStructs n))).
  - f_equal. unfold structTypes.
    induction (nodes tree) as [|n l IH]; simpl; [reflexivity|].
    rewrite map_app. f_equal. exact IH.
  - apply patchVisit_node.
  - reflexivity.
  - reflexivity.
Qed.

Lemma patchAST_eq tree :
  hasNameMethod tree = false ->
  patchAST tree = (withDecls tree (Decls tree ++ map newMethod (structTypes tree)), None).
Proof.
  intros H. unfold patchAST. rewrite H, Inspect_patchVisit. reflexivity.
Qed.

Lemma patchAST_guard tree :
  hasNameMethod tree = true -> patchAST tree = (tree, None).
Proof. intros H. unfold patchAST. rewrite H. reflexivity. Qed.

Lemma patchAST_no_error tree : snd (patchAST tree) = None.
Proof. unfold patchAST. destruct (hasNameMethod tree); reflexivity. Qed.

Lemma withDecls_same tree : withDecls tree (Decls tree) = tree.
Proof. destruct tree; reflexivity. Qed.

Lemma patchAST_twice tree : patchAST (fst (patchAST tree)) = patchAST tree.
Proof.
  destruct (hasNameMethod tree) eqn:H.
  - rewrite (patchAST_guard _ H). simpl. apply patchAST_guard, H.
  - rewrite (patchAST_eq _ H). simpl.
    destruct (structTypes tree) as [|name names] eqn:Hs.
    + simpl. rewrite app_nil_r, withDecls_same, (patchAST_eq _ H), Hs.
      simpl. rewrite app_nil_r, withDecls_same. reflexivity.
    + apply patchAST_guard.
      apply hasNameMethod_top_level with (d := newMethod name); [|reflexivity].
      simpl. apply in_or_app. right. left. reflexivity.
Qed.

Lemma top_level_structs_found tree :
  incl (topLevelStructTypes tree) (structTypes tree).
Proof.
  unfold topLevelStructTypes, structTypes. intros name H.
  apply in_flat_map in H. destruct H as (d & Hd & Hname).
  apply in_flat_map. exists d. split; [|exact Hname].
  apply In_nodes. exists d. split; [right; exact Hd | constructor].
Qed.

(** Some evaluations of the detector. *)
Example detector_Item : isFlatBufferFile Item_go = true.
Proof. vm_compute. reflexivity. Qed.

Example detector_Helper : isFlatBufferFile Helper_go = false.
Proof. vm_compute. reflexivity. Qed.

Example detector_ImportOnly :
  hasFlatBuffersImport ImportOnly_go = true /\ isFlatBufferFile ImportOnly_go = false.
Proof. split; vm_compute; reflexivity. Qed.

Example detector_TableOnly :
  usesFlatBuffersTable TableOnly_go = true /\ isFlatBufferFile TableOnly_go = false.
Proof. split; vm_compute; reflexivity. Qed.

(** C3. If the walk of [hasNameMethod] meets a function or method
    declaration named [Name] (function declarations are top-level
    declarations of a file, and the walk does not look inside a function
    declaration), [patchAST] leaves the tree as it is. Patching the
    patched tree gives the patched tree again, so no method is added a
    second time. *)
Theorem patch_is_idempotent : forall tree,
    ((exists m, InFileUpTo isFuncDecl tree m /\ isNameFunc m = true) ->
     patchAST tree = (tree, None)) /\
    (forall d, In d (Decls tree) -> isNameFunc d = true -> patchAST tree = (tree, None)) /\
    patchAST (fst (patchAST tree)) = patchAST tree /\
    filter isNameFunc (Decls (fst (patchAST (fst (patchAST tree))))) =
    filter isNameFunc (Decls (fst (patchAST tree))).
Proof.
  intros tree. repeat split.
  - intros H. apply patchAST_guard, hasNameMethod_spec, H.
  - intros d Hin Hd. eapply patchAST_guard, hasNameMethod_top_level; eauto.
  - apply patchAST_twice.
  - rewrite patchAST_twice. reflexivity.
Qed.

Example patch_Item_twice :
  Decls (fst (patchAST Item_go)) = Decls Item_go ++ [newMethod "Item"] /\
  patchAST (fst (patchAST Item_go)) = patchAST Item_go.
Proof. split; vm_compute; reflexivity. Qed.

(** C9. A top-level function named [Name] with no receiver makes
    [hasNameMethod] true: the file is not patched, whatever struct types
    it declares. *)
Theorem plain_Name_function_blocks_patch : forall tree ftype body,
    In (FuncDecl None "Name" ftype body) (Decls tree) ->
    hasNameMethod tree = true /\
    patchAST tree = (tree, None) /\
    Decls (fst (patchAST tree)) = Decls tree.
Proof.
  intros tree ftype body Hin.
  assert (H : hasNameMethod tree = true)
    by (eapply hasNameMethod_top_level; [exact Hin | reflexivity]).
  rewrite (patchAST_guard _ H). auto.
Qed.

Lemma plain_Name_function_blocks_patch_witness :
  structTypes PlainName_go = ["Item"] /\
  hasNameMethod PlainName_go = true /\
  patchAST PlainName_go = (PlainName_go, None) /\
  Decls (fst (patchAST PlainName_go)) = Decls PlainName_go.
Proof.
  split; [vm_compute; reflexivity|].
  apply (plain_Name_function_blocks_patch PlainName_go
           (FuncType None (Some (FieldList [])) None) (Some (BlockStmt []))).
  simpl. right. right. left. reflexivity.
Defined.

(** What [patchAST] appends when it finds no [Name] method: one method
    per struct type spec met by the walk, in the order of the walk; the
    struct types declared at top level are among them. *)
Theorem patch_appends_one_method_per_struct : forall tree,
    hasNameMethod tree = false ->
    patchAST tree =
      (withDecls tree (Decls tree ++ map newMethod (structTypes tree)), None) /\
    incl (topLevelStructTypes tree) (structTypes tree) /\
    (forall name, In name (structTypes tree) <->
       exists tok specs tp fields,
         InFile tree (GenDecl tok specs) /\ tok = token.TYPE /\
         In (TypeSpec name tp (StructType fields)) specs).
Proof.
  intros tree H. split; [apply patchAST_eq, H|].
  split; [apply top_level_structs_found|].
  intros name. unfold structTypes. rewrite in_flat_map. split.
  - intros (n & Hn & Hname). apply In_nodes in Hn.
    destruct n as [| | | | | | | | | |tok specs| | | | |]; try contradiction.
    destruct tok; try contradiction. simpl in Hname.
    unfold structNames in Hname. apply in_flat_map in Hname.
    destruct Hname as (spec & Hspec & Hin).
    destruct spec as [| | | | | | | | |name' tp ty| | | | | |]; try contradiction.
    destruct ty; try contradiction. destruct Hin as [<-|[]].
    exists token.TYPE, specs, tp, ty. auto.
  - intros (tok & specs & tp & fields & Hn & -> & Hin).
    exists (GenDecl token.TYPE specs). split; [apply In_nodes, Hn|].
    simpl. unfold structNames. apply in_flat_map. eexists. split; [exact Hin|].
    simpl. auto.
Qed.

Lemma patch_appends_one_method_per_struct_witness :
  patchAST Item_go = (withDecls Item_go (Decls Item_go ++ [newMethod "Item"]), None).
Proof.
  apply (patch_appends_one_method_per_struct Item_go). vm_compute. reflexivity.
Defined.

(** C4. [patchAST] at [Shadow_go], a file with no [Name] method whose only
    top-level struct type is [Item]: it appends three methods, not one.
    The walk enters the body of [helper] and patches its local struct
    types, which gives a second method with the receiver [*Item] and a
    method with the receiver [*Kind], the name of a top-level type that is
    not a struct. *)
Lemma patch_reaches_local_types :
  isFlatBufferFile Shadow_go = true /\
  hasNameMethod Shadow_go = false /\
  topLevelStructTypes Shadow_go = ["Item"] /\
  Decls (fst (patchAST Shadow_go)) =
    Decls Shadow_go ++ [newMethod "Item"; newMethod "Item"; newMethod "Kind"] /\
  Decls (fst (patchAST Shadow_go)) <>
    Decls Shadow_go ++ map newMethod (topLevelStructTypes Shadow_go).
Proof.
  repeat split; try (vm_compute; reflexivity). vm_compute. discriminate.
Qed.

(** ** Processing one file *)

Section ProcessFileFacts.
Variable parser_parse : string -> error + File.
Variable printer_print : File -> error + string.
Variable create_fault : FS -> string -> option error.
Variable write_fault : string -> option (nat * error).

Local Abbreviation run := (ProcessFile parser_parse printer_print create_fault write_fault).
Local Abbreviation parse := (parser_ParseFile parser_parse).

Lemma ProcessFile_skips p filePath fs tree :
  parse fs filePath = inr tree -> isFlatBufferFile tree = false ->
  run p filePath fs = (p, fs, Some ErrFlatBuffersNotImported).
Proof. intros Hp Hd. unfold ProcessFile. rewrite Hp, Hd. reflexivity. Qed.

Lemma ProcessFile_sentinel p filePath fs q fs' :
  run p filePath fs = (q, fs', Some ErrFlatBuffersNotImported) ->
  exists tree, parse fs filePath = inr tree /\ isFlatBufferFile tree = false.
Proof.
  unfold ProcessFile. destruct (parse fs filePath) as [err|tree]; [discriminate|].
  destruct (isFlatBufferFile tree) eqn:Hd; simpl; [|eauto].
  destruct (patchAST tree) as [tree' [patchErr|]]; [discriminate|].
  destruct (os_Create create_fault fs filePath) as [err|fs1]; [discriminate|].
  destruct (printer_Fprint printer_print write_fault fs1 filePath tree') as [fs2 [e|]];
    discriminate.
Qed.

Lemma ProcessFile_records p filePath fs tree :
  parse fs filePath = inr tree -> isFlatBufferFile tree = true ->
  flatbuffers (fst (fst (run p filePath fs))) =
    flatbuffers p ++ [recordedName filePath].
Proof.
  intros Hp Hd. unfold ProcessFile. rewrite Hp, Hd. simpl.
  destruct (patchAST tree) as [tree' [patchErr|]]; [reflexivity|].
  destruct (os_Create create_fault fs filePath) as [err|fs1]; [reflexivity|].
  destruct (printer_Fprint printer_print write_fault fs1 filePath tree') as [fs2 [e|]];
    reflexivity.
Qed.

Lemma ProcessFile_create_fails p filePath fs tree err :
  parse fs filePath = inr tree -> isFlatBufferFile tree = true ->
  create_fault fs filePath = Some err ->
  run p filePath fs =
    ({| flatbuffers := flatbuffers p ++ [recordedName filePath] |}, fs,
     Some (Errorf "failed to create file" err)).
Proof.
  intros Hp Hd Hc. unfold ProcessFile. rewrite Hp, Hd. simpl.
  pose proof (patchAST_no_error tree) as Hpatch.
  destruct (patchAST tree) as [tree' patchErr]. simpl in Hpatch. subst patchErr.
  unfold os_Create. rewrite Hc. reflexivity.
Qed.
End ProcessFileFacts.

(** C6. When the file parses and the detector answers false,
    [ProcessFile] returns the error [ErrFlatBuffersNotImported], the file
    system is as before and so is the list of names. No other path
    returns that error: a parse, patch, create or print failure is
    wrapped by [fmt.Errorf]. *)
Theorem not_a_record_file_is_skipped :
  forall parser_parse printer_print create_fault write_fault p filePath fs tree,
    parser_ParseFile parser_parse fs filePath = inr tree ->
    isFlatBufferFile tree = false ->
    ProcessFile parser_parse printer_print create_fault write_fault p filePath fs =
      (p, fs, Some ErrFlatBuffersNotImported) /\
    (forall p0 path0 fs0 q fs',
        ProcessFile parser_parse printer_print create_fault write_fault p0 path0 fs0 =
          (q, fs', Some ErrFlatBuffersNotImported) ->
        exists tree0, parser_ParseFile parser_parse fs0 path0 = inr tree0 /\
                      isFlatBufferFile tree0 = false).
Proof.
  intros pp pr cf wf p filePath fs tree Hp Hd. split.
  - apply ProcessFile_skips with (tree := tree); assumption.
  - intros p0 path0 fs0 q fs'. apply ProcessFile_sentinel.
Qed.

Lemma not_a_record_file_is_skipped_witness :
  ProcessFile (demo_parse Helper_go) demo_print no_create_fault no_write_fault
    NewGoProcessor "out/Helper.go" demo_fs =
    (NewGoProcessor, demo_fs, Some ErrFlatBuffersNotImported).
Proof.
  apply (not_a_record_file_is_skipped (demo_parse Helper_go) demo_print
           no_create_fault no_write_fault NewGoProcessor "out/Helper.go" demo_fs
           Helper_go); vm_compute; reflexivity.
Defined.

(** C10. For a record file the name is appended before the tree is
    patched and the file written. [patchAST] returns no error; when
    [os.Create] fails the call returns the wrapped error and the
    processor holds the new name; whatever error the call returns after
    detection, the name stays in the list. *)
Theorem name_stays_when_writing_fails :
  forall parser_parse printer_print create_fault write_fault p filePath fs tree,
    parser_ParseFile parser_parse fs filePath = inr tree ->
    isFlatBufferFile tree = true ->
    snd (patchAST tree) = None /\
    (forall err, create_fault fs filePath = Some err ->
       ProcessFile parser_parse printer_print create_fault write_fault p filePath fs =
         ({| flatbuffers := flatbuffers p ++ [recordedName filePath] |}, fs,
          Some (Errorf "failed to create file" err))) /\
    (forall q fs' err,
       ProcessFile parser_parse printer_print create_fault write_fault p filePath fs =
         (q, fs', Some err) ->
       flatbuffers q = flatbuffers p ++ [recordedName filePath]).
Proof.
  intros pp pr cf wf p filePath fs tree Hp Hd. split; [apply patchAST_no_error|]. split.
  - intros err Hc. apply ProcessFile_create_fails with (tree := tree); assumption.
  - intros q fs' err Hrun.
    rewrite <- (ProcessFile_records pp pr cf wf p filePath fs tree Hp Hd), Hrun.
    reflexivity.
Qed.

Lemma name_stays_when_writing_fails_witness :
  ProcessFile (demo_parse Item_go) demo_print read_only no_write_fault
    NewGoProcessor "out/Item.go" demo_fs =
    ({| flatbuffers := ["Item"] |}, demo_fs,
     Some (Errorf "failed to create file" (LibError "permission denied"))).
Proof.
  apply (name_stays_when_writing_fails (demo_parse Item_go) demo_print read_only
           no_write_fault NewGoProcessor "out/Item.go" demo_fs Item_go);
    vm_compute; reflexivity.
Defined.

(** C2, as amended. For a record file the name [ProcessFile] records is
    the last element of the file path without a trailing [.go]; it is
    computed from the path alone, whatever types the file declares. Both
    revisions of [ProcessFile] record that name. *)
Theorem recorded_name_is_file_name :
  forall parser_parse printer_print create_fault write_fault p filePath fs tree,
    parser_ParseFile parser_parse fs filePath = inr tree ->
    isFlatBufferFile tree = true ->
    flatbuffers (fst (fst (ProcessFile parser_parse printer_print create_fault
                             write_fault p filePath fs))) =
      flatbuffers p ++ [strings.TrimSuffix (filepath.Base filePath) ".go"] /\
    flatbuffers (fst (fst (go_go.ProcessFile parser_parse p filePath fs))) =
      flatbuffers p ++ [strings.TrimSuffix (filepath.Base filePath) ".go"].
Proof.
  intros pp pr cf wf p filePath fs tree Hp Hd. split.
  - apply ProcessFile_records with (tree := tree); assumption.
  - unfold go_go.ProcessFile. rewrite Hp, Hd. reflexivity.
Qed.

Lemma recorded_name_is_file_name_witness :
  flatbuffers (fst (fst (ProcessFile (demo_parse Item_go) demo_print no_create_fault
                           no_write_fault NewGoProcessor "out/Item.go" demo_fs))) =
    [] ++ [strings.TrimSuffix (filepath.Base "out/Item.go") ".go"].
Proof.
  apply (recorded_name_is_file_name (demo_parse Item_go) demo_print no_create_fault
           no_write_fault NewGoProcessor "out/Item.go" demo_fs Item_go);
    vm_compute; reflexivity.
Defined.

(** C2 as stated fails: the file [out/Foo.go] declares the one type
    [Bar] and is recorded as [Foo], which is not a type of the file; the
    file [out/.go] is recorded under the empty name. *)
Lemma recorded_name_ignores_type_declarations :
  isFlatBufferFile (generatedFile "Bar") = true /\
  typeNames (generatedFile "Bar") = ["Bar"] /\
  flatbuffers (fst (fst (ProcessFile (demo_parse (generatedFile "Bar")) demo_print
                           no_create_fault no_write_fault NewGoProcessor
                           "out/Foo.go" demo_fs))) = ["Foo"] /\
  flatbuffers (fst (fst (ProcessFile (demo_parse (generatedFile "Bar")) demo_print
                           no_create_fault no_write_fault NewGoProcessor
                           "out/.go" demo_fs))) = [""].
Proof. repeat split; vm_compute; reflexivity. Qed.

(** ** The order on strings and [sort.Strings] *)

Lemma ascii_compare_trans a b c :
  Ascii.compare a b <> Gt -> Ascii.compare b c <> Gt ->
  Ascii.compare a c <> Gt /\
  (Ascii.compare a c = Eq -> Ascii.compare a b = Eq /\ Ascii.compare b c = Eq).
Proof.
  unfold Ascii.compare.
  destruct (N.compare_spec (N_of_ascii a) (N_of_ascii b)) as [Hab|Hab|Hab];
    destruct (N.compare_spec (N_of_ascii b) (N_of_ascii c)) as [Hbc|Hbc|Hbc];
    destruct (N.compare_spec (N_of_ascii a) (N_of_ascii c)) as [Hac|Hac|Hac];
    intros H1 H2; split; try congruence; try (intros _; split; congruence);
    exfalso; lia.
Qed.

Lemma string_compare_trans : forall a b c,
    String.compare a b <> Gt -> String.compare b c <> Gt -> String.compare a c <> Gt.
Proof.
  induction a as [|x a IH]; intros [|y b] [|z c]; simpl; try congruence.
  intros Hab Hbc.
  destruct (Ascii.compare x y) eqn:Hxy; try congruence;
    destruct (Ascii.compare y z) eqn:Hyz; try congruence;
    destruct (ascii_compare_trans x y z) as [Hle Heq];
    rewrite ?Hxy, ?Hyz; try congruence;
    destruct (Ascii.compare x z) eqn:Hxz; try congruence;
    try (destruct (Heq eq_refl); congruence).
  apply (IH b c); assumption.
Qed.

Lemma lex_le_trans a b c : lex_le a b -> lex_le b c -> lex_le a c.
Proof.
  unfold lex_le, String.leb. intros Hab Hbc.
  pose proof (string_compare_trans a b c) as H.
  destruct (String.compare a b); try discriminate;
    destruct (String.compare b c); try discriminate;
    destruct (String.compare a c); try reflexivity;
    exfalso; apply H; congruence.
Qed.

Lemma lex_le_total a b : lex_le a b \/ lex_le b a.
Proof. apply String.leb_total. Qed.

Lemma lex_le_antisym a b : lex_le a b -> lex_le b a -> a = b.
Proof. apply String.leb_antisym. Qed.

Lemma leb_false_le a b : String.leb a b = false -> lex_le b a.
Proof. intros H. destruct (lex_le_total a b) as [H'|H']; [unfold lex_le in H'; congruence|exact H']. Qed.

Lemma insert_perm x l : Permutation (sort.insert x l) (x :: l).
Proof.
  induction l as [|y l IH]; simpl; [reflexivity|].
  destruct (String.leb x y); [reflexivity|].
  rewrite IH. apply perm_swap.
Qed.

Lemma Strings_perm l : Permutation (sort.Strings l) l.
Proof.
  induction l as [|x l IH]; simpl; [reflexivity|].
  rewrite insert_perm. constructor. exact IH.
Qed.

Lemma insert_sorted x l : Sorted lex_le l -> Sorted lex_le (sort.insert x l).
Proof.
  induction 1 as [|y l Hs IH Hhd]; simpl.
  - repeat constructor.
  - destruct (String.leb x y) eqn:Hxy.
    + constructor; [constructor; assumption|]. constructor. exact Hxy.
    + constructor; [exact IH|].
      destruct l as [|z l]; simpl.
      * constructor. apply leb_false_le, Hxy.
      * destruct (String.leb x z); constructor.
        -- apply leb_false_le, Hxy.
        -- inversion Hhd; assumption.
Qed.

Lemma Strings_sorted l : Sorted lex_le (sort.Strings l).
Proof.
  induction l as [|x l IH]; simpl; [constructor|]. apply insert_sorted, IH.
Qed.

Lemma insert_insert x y l :
  sort.insert x (sort.insert y l) = sort.insert y (sort.insert x l).
Proof.
  induction l as [|z l IH]; simpl.
  - destruct (String.leb x y) eqn:Hxy, (String.leb y x) eqn:Hyx; try reflexivity.
    + rewrite (lex_le_antisym x y Hxy Hyx). reflexivity.
    + apply leb_false_le in Hxy. unfold lex_le in Hxy. congruence.
  - destruct (String.leb y z) eqn:Hyz, (String.leb x z) eqn:Hxz; simpl;
      rewrite ?Hyz, ?Hxz.
    + destruct (String.leb x y) eqn:Hxy, (String.leb y x) eqn:Hyx; try reflexivity.
      * rewrite (lex_le_antisym x y Hxy Hyx). reflexivity.
      * apply leb_false_le in Hxy. unfold lex_le in Hxy. congruence.
    + destruct (String.leb x y) eqn:Hxy; [|reflexivity].
      pose proof (lex_le_trans x y z Hxy Hyz) as H. unfold lex_le in H. congruence.
    + destruct (String.leb y x) eqn:Hyx; [|reflexivity].
      pose proof (lex_le_trans y x z Hyx Hxz) as H. unfold lex_le in H. congruence.
    + rewrite IH. reflexivity.
Qed.

(** [sort.Strings] depends on the names and how often each occurs, not on
    their order. *)
Lemma Strings_Permutation l1 l2 :
  Permutation l1 l2 -> sort.Strings l1 = sort.Strings l2.
Proof.
  induction 1 as [|x l1 l2 _ IH|x y l|l1 l2 l3 _ IH1 _ IH2]; simpl.
  - reflexivity.
  - rewrite IH. reflexivity.
  - apply insert_insert.
  - congruence.
Qed.

(** ** The registry *)

Lemma Execute_flatbufferCode keys :
  template.Execute flatbufferCode keys = registryText keys.
Proof.
  unfold template.Execute, registryText, flatbufferCode.
  cbn [map template.execNode].
  change (template.concat [flatbufferCode_head; ?mid; flatbufferCode_tail])
    with (flatbufferCode_head ++ mid ++ flatbufferCode_tail)%string.
  reflexivity.
Qed.

Section PostProcessFacts.
Variable filepath_Join : string -> string -> string.
Variable create_fault : FS -> string -> option error.
Variable write_fault : string -> option (nat * error).

Local Abbreviation post := (PostProcess filepath_Join create_fault write_fault).

Lemma PostProcess_same p1 p2 outputDir fs :
  sort.Strings (flatbuffers p1) = sort.Strings (flatbuffers p2) ->
  snd (fst (post p1 outputDir fs)) = snd (fst (post p2 outputDir fs)) /\
  snd (post p1 outputDir fs) = snd (post p2 outputDir fs).
Proof.
  intros H. unfold PostProcess.
  destruct (os_Create create_fault fs _) as [err|fs1]; [split; reflexivity|].
  simpl. rewrite H.
  destruct (io_Write write_fault fs1 _ _) as [fs2 [e|]]; split; reflexivity.
Qed.

Lemma PostProcess_success p outputDir fs :
  snd (post p outputDir fs) = None ->
  snd (fst (post p outputDir fs)) (filepath_Join outputDir FlatDataHelperFileName) =
    Some (registryText (sort.Strings (flatbuffers p))) /\
  flatbuffers (fst (fst (post p outputDir fs))) = sort.Strings (flatbuffers p).
Proof.
  unfold PostProcess, os_Create, io_Write.
  destruct (create_fault fs _) as [err|]; [discriminate|].
  destruct (write_fault _) as [[n err]|]; [discriminate|].
  simpl. intros _. unfold writeFile. rewrite String.eqb_refl, Execute_flatbufferCode.
  split; reflexivity.
Qed.
End PostProcessFacts.

Example registry_of_three :
  snd (fst (PostProcess demo_Join no_create_fault no_write_fault
              {| flatbuffers := ["Item"; "Character"; "Account"] |} "out" demo_fs))
      "out/flatdatas_helper.go" =
    Some (registryText ["Account"; "Character"; "Item"]).
Proof. vm_compute. reflexivity. Qed.

(** * Further properties of the processor *)

(** ** The guard and the patch *)

Lemma Reach_Desc prune n m : Reach prune n m -> Desc n m.
Proof.
  induction 1 as [n|n c m _ Hin _ IH]; [constructor|].
  eapply Reach_child; [reflexivity | exact Hin | exact IH].
Qed.

Lemma isNameFunc_isFuncDecl m : isNameFunc m = true -> isFuncDecl m = true.
Proof. destruct m; simpl; congruence. Qed.

(** X1. In a tree whose function declarations are all top-level
    declarations, [hasNameMethod] answers whether some top-level
    declaration is a function or method named [Name]: types, fields,
    variables or interface methods of that name do not count. *)
Theorem hasNameMethod_is_top_level_test : forall tree,
    funcsOnlyAtTopLevel tree = true ->
    hasNameMethod tree = existsb isNameFunc (Decls tree).
Proof.
  intros tree Hwf. apply eq_true_iff_eq. rewrite hasNameMethod_spec, existsb_exists.
  split.
  - intros (m & (c & Hc & Hreach) & Hm). destruct Hc as [<-|Hc].
    + inversion Hreach; subst; [discriminate|contradiction].
    + inversion Hreach as [|? c' ? _ Hin Hsub]; subst; [eauto|].
      exfalso. unfold funcsOnlyAtTopLevel in Hwf.
      rewrite forallb_forall in Hwf. specialize (Hwf _ Hc).
      rewrite forallb_forall in Hwf. specialize (Hwf _ Hin).
      rewrite forallb_forall in Hwf.
      apply Reach_Desc, In_below in Hsub. specialize (Hwf _ Hsub).
      rewrite (isNameFunc_isFuncDecl _ Hm) in Hwf. discriminate.
  - intros (d & Hd & Hm). exists d. split; [|exact Hm].
    exists d. split; [right; exact Hd | constructor].
Qed.

Lemma hasNameMethod_is_top_level_test_witness :
  hasNameMethod Shadow_go = existsb isNameFunc (Decls Shadow_go).
Proof.
  apply (hasNameMethod_is_top_level_test Shadow_go). vm_compute. reflexivity.
Defined.

Lemma newMethod_below name :
  below (newMethod name) =
    [newMethod name;
     FieldList [Field [] (Some (StarExpr (Ident name))) None];
     Field [] (Some (StarExpr (Ident name))) None;
     StarExpr (Ident name);
     Ident name;
     Ident "Name";
     FuncType None (Some (FieldList []))
       (Some (FieldList [Field [] (Some (Ident "string")) None]));
     FieldList [];
     FieldList [Field [] (Some (Ident "string")) None];
     Field [] (Some (Ident "string")) None;
     Ident "string";
     BlockStmt [ReturnStmt [Ident (quoted name)]];
     ReturnStmt [Ident (quoted name)];
     Ident (quoted name)].
Proof. reflexivity. Qed.

Lemma nodes_withDecls_app tree more :
  nodes (withDecls tree (Decls tree ++ more)) = nodes tree ++ flat_map below more.
Proof. rewrite !nodes_eq. simpl. rewrite flat_map_app. reflexivity. Qed.

Lemma flat_map_nil {A B} (f : A -> list B) l :
  (forall x, In x l -> f x = []) -> flat_map f l = [].
Proof.
  induction l as [|x l IH]; simpl; intros H; [reflexivity|].
  rewrite (H x), IH; auto.
Qed.

Lemma newMethods_declare_nothing names :
  flat_map declaredStructs (flat_map below (map newMethod names)) = [].
Proof.
  apply flat_map_nil. intros m Hm. apply in_flat_map in Hm.
  destruct Hm as (d & Hd & Hm). apply in_map_iff in Hd.
  destruct Hd as (name & <- & _). rewrite newMethod_below in Hm.
  simpl in Hm. repeat (destruct Hm as [<-|Hm]; [reflexivity|]). contradiction.
Qed.

Lemma newMethods_have_no_table_field names m :
  In m (flat_map below (map newMethod names)) -> isTableField m = false.
Proof.
  intros Hm. apply in_flat_map in Hm.
  destruct Hm as (d & Hd & Hm). apply in_map_iff in Hd.
  destruct Hd as (name & <- & _). rewrite newMethod_below in Hm.
  simpl in Hm. repeat (destruct Hm as [<-|Hm]; [reflexivity|]). contradiction.
Qed.

Lemma patchAST_cases tree :
  fst (patchAST tree) = tree \/
  (hasNameMethod tree = false /\
   fst (patchAST tree) =
     withDecls tree (Decls tree ++ map newMethod (structTypes tree))).
Proof.
  destruct (hasNameMethod tree) eqn:H.
  - left. rewrite (patchAST_guard _ H). reflexivity.
  - right. rewrite (patchAST_eq _ H). auto.
Qed.

(** X2. [patchAST] only appends: the package name and the imports are
    kept, the declarations of the tree are a prefix of the declarations
    of the result, and everything after that prefix is a [Name] method
    made for a struct type of the tree. It never returns an error. *)
Theorem patch_only_appends : forall tree,
    Name (fst (patchAST tree)) = Name tree /\
    Imports (fst (patchAST tree)) = Imports tree /\
    firstn (List.length (Decls tree)) (Decls (fst (patchAST tree))) = Decls tree /\
    Forall (fun d => exists name, d = newMethod name /\ In name (structTypes tree))
           (skipn (List.length (Decls tree)) (Decls (fst (patchAST tree)))) /\
    snd (patchAST tree) = None.
Proof.
  intros tree. destruct (patchAST_cases tree) as [->|[_ ->]]; simpl.
  - rewrite firstn_all, skipn_all. rewrite patchAST_no_error. repeat split. constructor.
  - rewrite firstn_app, firstn_all, Nat.sub_diag, skipn_app, skipn_all, Nat.sub_diag.
    simpl. rewrite app_nil_r, patchAST_no_error. repeat split.
    apply Forall_forall. intros d Hd. apply in_map_iff in Hd.
    destruct Hd as (name & <- & Hin). eauto.
Qed.

(** X3. After [patchAST] the tree has a [Name] method exactly when it had
    one before or declares a struct type: a second call finds the guard
    set unless the first call had nothing to add. *)
Theorem guard_holds_after_patch : forall tree,
    hasNameMethod (fst (patchAST tree)) = true <->
    hasNameMethod tree = true \/ structTypes tree <> [].
Proof.
  intros tree. destruct (hasNameMethod tree) eqn:H.
  - rewrite (patchAST_guard _ H). simpl. rewrite H. tauto.
  - rewrite (patchAST_eq _ H). simpl.
    destruct (structTypes tree) as [|name names] eqn:Hs.
    + simpl. rewrite app_nil_r, withDecls_same, H.
      split; [discriminate|]. intros [Hf|Hf]; [discriminate|contradiction].
    + split; [intros _; right; discriminate|]. intros _.
      apply hasNameMethod_top_level with (d := newMethod name); [|reflexivity].
      simpl. apply in_or_app. right. left. reflexivity.
Qed.

Lemma usesFlatBuffersTable_nodes file :
  usesFlatBuffersTable file = existsb isTableField (nodes file).
Proof.
  apply eq_true_iff_eq. rewrite usesFlatBuffersTable_spec, existsb_exists.
  unfold hasTableField. split.
  - intros (names & tag & H). eexists. split; [apply In_nodes; exact H | reflexivity].
  - intros (m & Hm & Hp). apply isTableField_spec in Hp.
    destruct Hp as (names & tag & ->). exists names, tag. apply In_nodes, Hm.
Qed.

Lemma patchAST_detection tree :
  isFlatBufferFile (fst (patchAST tree)) = isFlatBufferFile tree.
Proof.
  destruct (patchAST_cases tree) as [->|[_ ->]]; [reflexivity|].
  unfold isFlatBufferFile.
  replace (hasFlatBuffersImport (withDecls tree _)) with (hasFlatBuffersImport tree)
    by reflexivity.
  destruct (hasFlatBuffersImport tree); simpl; [|reflexivity].
  rewrite !usesFlatBuffersTable_nodes, nodes_withDecls_app, existsb_app.
  replace (existsb isTableField (flat_map below (map newMethod (structTypes tree))))
    with false; [apply orb_false_r|].
  symmetry. apply not_true_is_false. intros H. apply existsb_exists in H.
  destruct H as (m & Hm & Hp).
  rewrite (newMethods_have_no_table_field _ _ Hm) in Hp. discriminate.
Qed.

(** X4. Patching does not change what the detector answers: the methods
    [patchAST] adds hold no field of type [flatbuffers.Table] and the
    imports are kept, so a record file stays a record file and a rewritten
    file is recognised again. *)
Theorem patch_keeps_detection : forall tree,
    isFlatBufferFile (fst (patchAST tree)) = isFlatBufferFile tree.
Proof. exact patchAST_detection. Qed.

(** X5. Patching does not change the struct types of the tree: the
    methods added declare no type. *)
Theorem patch_keeps_struct_types : forall tree,
    structTypes (fst (patchAST tree)) = structTypes tree.
Proof.
  intros tree. destruct (patchAST_cases tree) as [->|[_ ->]]; [reflexivity|].
  unfold structTypes. rewrite nodes_withDecls_app, flat_map_app.
  rewrite newMethods_declare_nothing. apply app_nil_r.
Qed.

(** X7. The detector is monotone: declarations and imports added to a
    record file leave it a record file. *)
Theorem detector_is_monotone : forall tree moreDecls moreImports,
    isFlatBufferFile tree = true ->
    isFlatBufferFile {| Name := Name tree;
                        Decls := Decls tree ++ moreDecls;
                        Imports := Imports tree ++ moreImports |} = true.
Proof.
  intros tree moreDecls moreImports H. unfold isFlatBufferFile in *.
  destruct (hasFlatBuffersImport tree) eqn:Hi; [simpl in H|discriminate].
  apply hasFlatBuffersImport_spec in Hi. apply usesFlatBuffersTable_spec in H.
  replace (hasFlatBuffersImport _) with true; simpl.
  - apply usesFlatBuffersTable_spec.
    destruct H as (names & tag & c & Hc & Hd). exists names, tag, c.
    split; [|exact Hd]. simpl in *. destruct Hc as [Hc|Hc]; [left; exact Hc|].
    right. apply in_or_app. left. exact Hc.
  - symmetry. apply hasFlatBuffersImport_spec.
    destruct Hi as (imp & Hin & Hp). exists imp. split; [|exact Hp].
    simpl. apply in_or_app. left. exact Hin.
Qed.

Lemma detector_is_monotone_witness :
  isFlatBufferFile {| Name := Name Item_go;
                      Decls := Decls Item_go ++ Decls Helper_go;
                      Imports := Imports Item_go ++ [] |} = true.
Proof.
  apply (detector_is_monotone Item_go (Decls Helper_go) []). vm_compute. reflexivity.
Defined.

(** ** Strings and paths *)

Lemma string_app_assoc (a b c : string) :
  ((a ++ b) ++ c = a ++ (b ++ c))%string.
Proof. induction a as [|x a IH]; simpl; [reflexivity|]. rewrite IH. reflexivity. Qed.

Lemma string_app_nil_r (a : string) : (a ++ "" = a)%string.
Proof. induction a as [|x a IH]; simpl; [reflexivity|]. rewrite IH. reflexivity. Qed.

Lemma string_length_app (a b : string) :
  String.length (a ++ b) = String.length a + String.length b.
Proof. induction a as [|x a IH]; simpl; [reflexivity|]. rewrite IH. reflexivity. Qed.

Lemma substring_prefix (a b : string) : substring 0 (String.length a) (a ++ b) = a.
Proof.
  induction a as [|x a IH]; simpl.
  - destruct b; reflexivity.
  - rewrite IH. reflexivity.
Qed.

Lemma substring_all (b : string) : substring 0 (String.length b) b = b.
Proof. rewrite <- (string_app_nil_r b) at 2. apply substring_prefix. Qed.

Lemma substring_suffix (a b : string) :
  substring (String.length a) (String.length b) (a ++ b) = b.
Proof. induction a as [|x a IH]; simpl; [apply substring_all | exact IH]. Qed.

Lemma TrimSuffix_app (s suffix : string) :
  strings.TrimSuffix (s ++ suffix) suffix = s.
Proof.
  unfold strings.TrimSuffix, strings.HasSuffix.
  rewrite string_length_app.
  replace (String.length s + String.length suffix - String.length suffix)
    with (String.length s) by lia.
  rewrite substring_suffix, String.eqb_refl, substring_prefix.
  replace (Nat.leb (String.length suffix) (String.length s + String.length suffix))
    with true by (symmetry; apply Nat.leb_le; lia).
  reflexivity.
Qed.

Section TrimByte.
Variable c : ascii.

Local Abbreviation copies := (copies c).

Lemma trimRightByte_copies n : strings.trimRightByte (copies n) c = EmptyString.
Proof.
  induction n as [|n IH]; simpl; [reflexivity|].
  rewrite IH, Ascii.eqb_refl. reflexivity.
Qed.

(** Trailing copies of the byte are dropped. *)
Lemma trimRightByte_app_copies s n :
  strings.trimRightByte (s ++ copies n) c = strings.trimRightByte s c.
Proof.
  induction s as [|x s IH]; simpl; [apply trimRightByte_copies|].
  rewrite IH. reflexivity.
Qed.

(** What is left of a tail that does not vanish keeps what precedes it. *)
Lemma trimRightByte_app_keep u t :
  strings.trimRightByte t c <> EmptyString ->
  strings.trimRightByte (u ++ t) c = (u ++ strings.trimRightByte t c)%string.
Proof.
  intros Ht. induction u as [|x u IH]; simpl; [reflexivity|].
  rewrite IH. destruct (u ++ strings.trimRightByte t c)%string eqn:E; [|reflexivity].
  exfalso. destruct u; simpl in E; [contradiction|discriminate].
Qed.

Lemma trimRightByte_split s :
  exists n, s = (strings.trimRightByte s c ++ copies n)%string.
Proof.
  induction s as [|x s [n IH]]; simpl.
  - exists 0. reflexivity.
  - destruct (strings.trimRightByte s c) eqn:E.
    + simpl in IH. destruct (Ascii.eqb_spec x c) as [->|Hne].
      * exists (S n). simpl. rewrite <- IH. reflexivity.
      * exists n. simpl. rewrite <- IH. reflexivity.
    + exists n. simpl. simpl in IH. rewrite <- IH. reflexivity.
Qed.

Lemma trimLeftByte_split s :
  exists n, s = (copies n ++ strings.trimLeftByte s c)%string.
Proof.
  induction s as [|x s [n IH]]; simpl.
  - exists 0. reflexivity.
  - destruct (Ascii.eqb_spec x c) as [->|Hne].
    + exists (S n). simpl. rewrite <- IH. reflexivity.
    + exists 0. reflexivity.
Qed.

Lemma trimLeftByte_copies_app n x s :
  x <> c ->
  strings.trimLeftByte (copies n ++ String x s) c = String x s.
Proof.
  intros Hne. induction n as [|n IH]; simpl.
  - destruct (Ascii.eqb_spec x c); [contradiction|reflexivity].
  - rewrite Ascii.eqb_refl. exact IH.
Qed.

(** [strings.Trim] splits its argument into leading copies of the byte,
    the result, and trailing copies. *)
Lemma Trim_split s :
  exists a b, s = (copies a ++ strings.Trim s c ++ copies b)%string.
Proof.
  destruct (trimRightByte_split s) as [b Hb].
  destruct (trimLeftByte_split (strings.trimRightByte s c)) as [a Ha].
  exists a, b. unfold strings.Trim. rewrite <- string_app_assoc, <- Ha. exact Hb.
Qed.

(** A string that starts and ends with another byte comes back from any
    number of copies around it. *)
Lemma Trim_copies_around a b x s :
  x <> c -> strings.trimRightByte (String x s) c = String x s ->
  strings.Trim (copies a ++ String x s ++ copies b) c = String x s.
Proof.
  intros Hx Hs. unfold strings.Trim.
  rewrite trimRightByte_app_keep.
  - rewrite trimRightByte_app_copies, Hs. apply trimLeftByte_copies_app, Hx.
  - rewrite trimRightByte_app_copies, Hs. discriminate.
Qed.
End TrimByte.

(** X6. [hasFlatBuffersImport] accepts an import exactly when its path
    literal is the module path with any number of double quotes (none
    included) before and after it. A raw string literal, written with back
    quotes, is therefore not recognised. *)
Theorem import_literal_forms : forall file,
    hasFlatBuffersImport file = true <->
    exists imp a b,
      In imp (Imports file) /\
      Value (Path imp) =
        (quotes a ++ "github.com/google/flatbuffers/go" ++ quotes b)%string.
Proof.
  intros file. rewrite hasFlatBuffersImport_spec. unfold importsFlatBuffers. split.
  - intros (imp & Hin & Htrim).
    destruct (Trim_split "034"%char (Value (Path imp))) as (a & b & Hs).
    rewrite Htrim in Hs. eauto.
  - intros (imp & a & b & Hin & Hv). exists imp. split; [exact Hin|].
    rewrite Hv. unfold quotes.
    apply Trim_copies_around; [discriminate | reflexivity].
Qed.

Example raw_string_import_is_not_recognised :
  hasFlatBuffersImport
    {| Name := "flatdata"; Decls := [tableType "Item"];
       Imports := [{| LocalName := None;
                      Path := {| Value := "`github.com/google/flatbuffers/go`" |} |}] |}
  = false.
Proof. vm_compute. reflexivity. Qed.

Lemma noSeparator_afterLast s :
  noSeparator s = true -> filepath.afterLastSeparator s = None.
Proof.
  induction s as [|x s IH]; simpl; [reflexivity|].
  intros H. apply andb_true_iff in H. destruct H as [Hx Hs].
  rewrite (IH Hs). destruct (filepath.IsPathSeparator x); [discriminate|reflexivity].
Qed.

Lemma noSeparator_app a b :
  noSeparator a = true -> noSeparator b = true -> noSeparator (a ++ b) = true.
Proof.
  intros Ha Hb. induction a as [|x a IH]; simpl in *; [exact Hb|].
  apply andb_true_iff in Ha. destruct Ha as [Hx Ha]. rewrite Hx, (IH Ha). reflexivity.
Qed.

Lemma afterLastSeparator_dir dir rest :
  noSeparator rest = true ->
  filepath.afterLastSeparator (dir ++ String "/" rest) = Some rest.
Proof.
  intros H. induction dir as [|x dir IH]; simpl.
  - rewrite (noSeparator_afterLast _ H). reflexivity.
  - rewrite IH. reflexivity.
Qed.

Lemma Base_dir_file dir file :
  noSeparator file = true -> file <> EmptyString ->
  strings.trimRightByte file "/"%char = file ->
  filepath.Base (dir ++ String "/" file) = file.
Proof.
  intros Hsep Hne Htrim. unfold filepath.Base.
  replace (String.eqb (dir ++ String "/" file) "") with false
    by (destruct dir; reflexivity).
  replace (dir ++ String "/" file)%string with ((dir ++ "/") ++ file)%string
    by (rewrite string_app_assoc; reflexivity).
  rewrite trimRightByte_app_keep by (rewrite Htrim; exact Hne).
  rewrite Htrim, string_app_assoc. simpl.
  rewrite (afterLastSeparator_dir _ _ Hsep).
  destruct file; [contradiction|reflexivity].
Qed.

Lemma Base_file file :
  noSeparator file = true -> file <> EmptyString ->
  strings.trimRightByte file "/"%char = file ->
  filepath.Base file = file.
Proof.
  intros Hsep Hne Htrim. unfold filepath.Base.
  destruct file as [|x file]; [contradiction|].
  change (String.eqb (String x file) "") with false. cbv iota.
  rewrite Htrim, (noSeparator_afterLast _ Hsep). reflexivity.
Qed.

Lemma go_file_name name :
  noSeparator name = true ->
  noSeparator (name ++ ".go") = true /\ (name ++ ".go")%string <> EmptyString /\
  strings.trimRightByte (name ++ ".go") "/"%char = (name ++ ".go")%string.
Proof.
  intros H. split; [apply noSeparator_app; [exact H|reflexivity]|]. split.
  - destruct name; discriminate.
  - rewrite trimRightByte_app_keep; [reflexivity|discriminate].
Qed.

Lemma recordedName_of_go_file dir name :
  noSeparator name = true ->
  recordedName (dir ++ "/" ++ name ++ ".go") = name /\
  recordedName (name ++ ".go") = name.
Proof.
  intros H. destruct (go_file_name name H) as (Hsep & Hne & Htrim).
  unfold recordedName, Extension. split.
  - change (dir ++ "/" ++ name ++ ".go")%string
      with (dir ++ String "/" (name ++ ".go"))%string.
    rewrite (Base_dir_file _ _ Hsep Hne Htrim). apply TrimSuffix_app.
  - rewrite (Base_file _ Hsep Hne Htrim). apply TrimSuffix_app.
Qed.

(** X8. A record file named after its type is recorded under the type's
    name: for a path [dir/T.go], or [T.go], where [T] holds no slash,
    [ProcessFile] appends exactly [T], whatever the directory. *)
Theorem file_named_after_type_records_type :
  forall parser_parse printer_print create_fault write_fault p dir name fs tree,
    noSeparator name = true ->
    parser_ParseFile parser_parse fs (dir ++ "/" ++ name ++ ".go") = inr tree ->
    isFlatBufferFile tree = true ->
    flatbuffers (fst (fst (ProcessFile parser_parse printer_print create_fault
                             write_fault p (dir ++ "/" ++ name ++ ".go") fs))) =
      flatbuffers p ++ [name].
Proof.
  intros pp pr cf wf p dir name fs tree Hname Hp Hd.
  rewrite (ProcessFile_records pp pr cf wf p _ fs tree Hp Hd).
  destruct (recordedName_of_go_file dir name Hname) as [-> _]. reflexivity.
Qed.

Lemma file_named_after_type_records_type_witness :
  flatbuffers (fst (fst (ProcessFile (demo_parse Item_go) demo_print no_create_fault
                           no_write_fault {| flatbuffers := ["Account"] |}
                           ("go/flatdata" ++ "/" ++ "Item" ++ ".go") demo_fs))) =
    ["Account"] ++ ["Item"].
Proof.
  apply (file_named_after_type_records_type (demo_parse Item_go) demo_print
           no_create_fault no_write_fault {| flatbuffers := ["Account"] |}
           "go/flatdata" "Item" demo_fs Item_go); vm_compute; reflexivity.
Defined.

(** ** What [ProcessFile] does to the file system *)

Section ProcessFileDisk.
Variable parser_parse : string -> error + File.
Variable printer_print : File -> error + string.
Variable create_fault : FS -> string -> option error.
Variable write_fault : string -> option (nat * error).

Local Abbreviation run := (ProcessFile parser_parse printer_print create_fault write_fault).
Local Abbreviation parse := (parser_ParseFile parser_parse).

Lemma writeFile_other fs path data q : q <> path -> writeFile fs path data q = fs q.
Proof. intros H. unfold writeFile. apply String.eqb_neq in H. rewrite H. reflexivity. Qed.

Lemma writeFile_same fs path data : writeFile fs path data path = Some data.
Proof. unfold writeFile. rewrite String.eqb_refl. reflexivity. Qed.

Lemma ProcessFile_frame p filePath fs q :
  q <> filePath -> snd (fst (run p filePath fs)) q = fs q.
Proof.
  intros Hq. unfold ProcessFile.
  destruct (parse fs filePath) as [err|tree]; [reflexivity|].
  destruct (isFlatBufferFile tree); simpl; [|reflexivity].
  destruct (patchAST tree) as [tree' [patchErr|]]; [reflexivity|].
  unfold os_Create. destruct (create_fault fs filePath); [reflexivity|].
  unfold printer_Fprint, io_Write.
  destruct (printer_print tree') as [err|text].
  - simpl. apply writeFile_other, Hq.
  - destruct (write_fault filePath) as [[n err]|]; simpl;
      rewrite !writeFile_other by exact Hq; reflexivity.
Qed.

Lemma ProcessFile_writes_only_record_files p filePath fs :
  snd (fst (run p filePath fs)) <> fs ->
  exists tree, parse fs filePath = inr tree /\ isFlatBufferFile tree = true /\
               create_fault fs filePath = None.
Proof.
  unfold ProcessFile.
  destruct (parse fs filePath) as [err|tree] eqn:Hp;
    [intros H; contradiction H; reflexivity|].
  destruct (isFlatBufferFile tree) eqn:Hd; simpl;
    [|intros H; contradiction H; reflexivity].
  destruct (patchAST tree) as [tree' [patchErr|]];
    [intros H; contradiction H; reflexivity|].
  unfold os_Create. destruct (create_fault fs filePath) eqn:Hc;
    [intros H; contradiction H; reflexivity|].
  intros _. exists tree. auto.
Qed.

Lemma ProcessFile_print_fails p filePath fs tree err :
  parse fs filePath = inr tree -> isFlatBufferFile tree = true ->
  create_fault fs filePath = None ->
  printer_print (fst (patchAST tree)) = inl err ->
  run p filePath fs =
    ({| flatbuffers := flatbuffers p ++ [recordedName filePath] |},
     writeFile fs filePath "",
     Some (Errorf "failed to print AST" err)).
Proof.
  intros Hp Hd Hc Hpr. unfold ProcessFile. rewrite Hp, Hd. simpl.
  pose proof (patchAST_no_error tree) as Hpatch.
  destruct (patchAST tree) as [tree' patchErr]. simpl in Hpatch, Hpr. subst patchErr.
  unfold os_Create. rewrite Hc. unfold printer_Fprint. rewrite Hpr. reflexivity.
Qed.

Lemma ProcessFile_succeeds p filePath fs tree text :
  parse fs filePath = inr tree -> isFlatBufferFile tree = true ->
  create_fault fs filePath = None ->
  printer_print (fst (patchAST tree)) = inr text ->
  write_fault filePath = None ->
  run p filePath fs =
    ({| flatbuffers := flatbuffers p ++ [recordedName filePath] |},
     writeFile (writeFile fs filePath "") filePath text,
     None).
Proof.
  intros Hp Hd Hc Hpr Hw. unfold ProcessFile. rewrite Hp, Hd. simpl.
  pose proof (patchAST_no_error tree) as Hpatch.
  destruct (patchAST tree) as [tree' patchErr]. simpl in Hpatch, Hpr. subst patchErr.
  unfold os_Create. rewrite Hc. unfold printer_Fprint, io_Write. rewrite Hpr, Hw.
  reflexivity.
Qed.

Lemma ProcessFile_success_inv p filePath fs :
  snd (run p filePath fs) = None ->
  exists tree text,
    parse fs filePath = inr tree /\ isFlatBufferFile tree = true /\
    create_fault fs filePath = None /\
    printer_print (fst (patchAST tree)) = inr text /\
    write_fault filePath = None.
Proof.
  unfold ProcessFile.
  destruct (parse fs filePath) as [err|tree]; [discriminate|].
  destruct (isFlatBufferFile tree) eqn:Hd; simpl; [|discriminate].
  destruct (patchAST tree) as [tree' [patchErr|]] eqn:Hpatch; [discriminate|].
  unfold os_Create. destruct (create_fault fs filePath) eqn:Hc; [discriminate|].
  unfold printer_Fprint, io_Write.
  destruct (printer_print tree') as [err|text] eqn:Hpr; [discriminate|].
  destruct (write_fault filePath) as [[n err]|] eqn:Hw; [discriminate|].
  intros _. exists tree, text. rewrite Hpatch. simpl. auto.
Qed.
End ProcessFileDisk.

(** X9. [ProcessFile] touches no file but the one it is given: whatever
    the outcome, the content at every other path is as before. *)
Theorem ProcessFile_touches_one_file :
  forall parser_parse printer_print create_fault write_fault p filePath fs q,
    q <> filePath ->
    snd (fst (ProcessFile parser_parse printer_print create_fault write_fault
                p filePath fs)) q = fs q.
Proof. intros. apply ProcessFile_frame. assumption. Qed.

Lemma ProcessFile_touches_one_file_witness :
  snd (fst (ProcessFile (demo_parse Item_go) demo_print no_create_fault no_write_fault
              NewGoProcessor "out/Item.go" demo_fs)) "out/Helper.go" =
    demo_fs "out/Helper.go".
Proof.
  apply (ProcessFile_touches_one_file (demo_parse Item_go) demo_print no_create_fault
           no_write_fault NewGoProcessor "out/Item.go" demo_fs "out/Helper.go").
  discriminate.
Defined.

(** X10. [ProcessFile] changes the file system only for a file that
    parses, that the detector accepts and that [os.Create] can open: after
    a parse error, a skip or a failed create the file system is the one
    before the call. *)
Theorem only_record_files_are_rewritten :
  forall parser_parse printer_print create_fault write_fault p filePath fs,
    snd (fst (ProcessFile parser_parse printer_print create_fault write_fault
                p filePath fs)) <> fs ->
    exists tree,
      parser_ParseFile parser_parse fs filePath = inr tree /\
      isFlatBufferFile tree = true /\
      create_fault fs filePath = None.
Proof. intros. eapply ProcessFile_writes_only_record_files. eassumption. Qed.

Lemma only_record_files_are_rewritten_witness :
  exists tree,
    parser_ParseFile (demo_parse Item_go) demo_fs "out/Item.go" = inr tree /\
    isFlatBufferFile tree = true /\
    no_create_fault demo_fs "out/Item.go" = None.
Proof.
  apply (only_record_files_are_rewritten (demo_parse Item_go) demo_print
           no_create_fault no_write_fault NewGoProcessor "out/Item.go" demo_fs).
  intros H. apply (f_equal (fun fs => fs "out/Item.go")) in H.
  vm_compute in H. discriminate.
Defined.

(** X11. [os.Create] truncates the file before the tree is printed: when
    printing then fails, [ProcessFile] returns the error wrapped as
    [failed to print AST], the name stays recorded, and the file has lost
    its content: it is empty when the printer rejected the tree, and holds
    the bytes written so far when a write failed. *)
Theorem print_failure_loses_the_file :
  forall parser_parse printer_print create_fault write_fault p filePath fs tree,
    parser_ParseFile parser_parse fs filePath = inr tree ->
    isFlatBufferFile tree = true ->
    create_fault fs filePath = None ->
    snd (ProcessFile parser_parse printer_print create_fault write_fault
           p filePath fs) <> None ->
    exists err written,
      snd (ProcessFile parser_parse printer_print create_fault write_fault
             p filePath fs) = Some (Errorf "failed to print AST" err) /\
      snd (fst (ProcessFile parser_parse printer_print create_fault write_fault
                  p filePath fs)) filePath = Some written /\
      flatbuffers (fst (fst (ProcessFile parser_parse printer_print create_fault
                               write_fault p filePath fs))) =
        flatbuffers p ++ [recordedName filePath] /\
      ((printer_print (fst (patchAST tree)) = inl err /\ written = EmptyString) \/
       (exists text n,
          printer_print (fst (patchAST tree)) = inr text /\
          write_fault filePath = Some (n, err) /\
          written = substring 0 n text)).
Proof.
  intros pp pr cf wf p filePath fs tree Hp Hd Hc.
  destruct (pr (fst (patchAST tree))) as [err|text] eqn:Hpr.
  - rewrite (ProcessFile_print_fails pp pr cf wf p filePath fs tree err Hp Hd Hc Hpr).
    intros _. exists err, EmptyString. simpl. rewrite writeFile_same.
    repeat split. left. split; reflexivity.
  - destruct (wf filePath) as [[n err]|] eqn:Hw.
    + intros _. exists err, (substring 0 n text).
      unfold ProcessFile. rewrite Hp, Hd. simpl.
      pose proof (patchAST_no_error tree) as Hpatch.
      destruct (patchAST tree) as [tree' patchErr]. simpl in Hpatch, Hpr. subst patchErr.
      unfold os_Create. rewrite Hc. unfold printer_Fprint, io_Write. rewrite Hpr, Hw.
      simpl. rewrite writeFile_same. repeat split. right. exists text, n.
      repeat split.
    + rewrite (ProcessFile_succeeds pp pr cf wf p filePath fs tree text Hp Hd Hc Hpr Hw).
      intros H. contradiction H. reflexivity.
Qed.

Lemma print_failure_loses_the_file_witness :
  exists err written,
    snd (ProcessFile (demo_parse Item_go) demo_print no_create_fault disk_full
           NewGoProcessor "out/Item.go" demo_fs) =
      Some (Errorf "failed to print AST" err) /\
    snd (fst (ProcessFile (demo_parse Item_go) demo_print no_create_fault disk_full
                NewGoProcessor "out/Item.go" demo_fs)) "out/Item.go" = Some written /\
    flatbuffers (fst (fst (ProcessFile (demo_parse Item_go) demo_print no_create_fault
                             disk_full NewGoProcessor "out/Item.go" demo_fs))) =
      flatbuffers NewGoProcessor ++ [recordedName "out/Item.go"] /\
    ((demo_print (fst (patchAST Item_go)) = inl err /\ written = EmptyString) \/
     (exists text n,
        demo_print (fst (patchAST Item_go)) = inr text /\
        disk_full "out/Item.go" = Some (n, err) /\
        written = substring 0 n text)).
Proof.
  apply (print_failure_loses_the_file (demo_parse Item_go) demo_print no_create_fault
           disk_full NewGoProcessor "out/Item.go" demo_fs Item_go);
    try (vm_compute; reflexivity).
  vm_compute. discriminate.
Defined.

(** X12. When [ProcessFile] returns no error, the file parsed to a tree
    the detector accepts, the file now holds the text the printer gives for
    the patched tree, and the name of the file was recorded. *)
Theorem success_writes_patched_tree :
  forall parser_parse printer_print create_fault write_fault p filePath fs,
    snd (ProcessFile parser_parse printer_print create_fault write_fault
           p filePath fs) = None ->
    exists tree text,
      parser_ParseFile parser_parse fs filePath = inr tree /\
      isFlatBufferFile tree = true /\
      printer_print (fst (patchAST tree)) = inr text /\
      snd (fst (ProcessFile parser_parse printer_print create_fault write_fault
                  p filePath fs)) filePath = Some text /\
      flatbuffers (fst (fst (ProcessFile parser_parse printer_print create_fault
                               write_fault p filePath fs))) =
        flatbuffers p ++ [recordedName filePath].
Proof.
  intros pp pr cf wf p filePath fs Hok.
  destruct (ProcessFile_success_inv pp pr cf wf p filePath fs Hok)
    as (tree & text & Hp & Hd & Hc & Hpr & Hw).
  exists tree, text.
  rewrite (ProcessFile_succeeds pp pr cf wf p filePath fs tree text Hp Hd Hc Hpr Hw).
  simpl. rewrite writeFile_same. auto.
Qed.

Lemma success_writes_patched_tree_witness :
  exists tree text,
    parser_ParseFile (demo_parse Item_go) demo_fs "out/Item.go" = inr tree /\
    isFlatBufferFile tree = true /\
    demo_print (fst (patchAST tree)) = inr text /\
    snd (fst (ProcessFile (demo_parse Item_go) demo_print no_create_fault
                no_write_fault NewGoProcessor "out/Item.go" demo_fs)) "out/Item.go" =
      Some text /\
    flatbuffers (fst (fst (ProcessFile (demo_parse Item_go) demo_print no_create_fault
                             no_write_fault NewGoProcessor "out/Item.go" demo_fs))) =
      flatbuffers NewGoProcessor ++ [recordedName "out/Item.go"].
Proof.
  apply (success_writes_patched_tree (demo_parse Item_go) demo_print no_create_fault
           no_write_fault NewGoProcessor "out/Item.go" demo_fs).
  vm_compute. reflexivity.
Defined.

(** X16. The two revisions of [ProcessFile] keep the same list of names
    on every input; the earlier one never changes the file system, and
    succeeds whenever the later one does. *)
Theorem revisions_record_the_same_names :
  forall parser_parse printer_print create_fault write_fault p filePath fs,
    flatbuffers (fst (fst (go_go.ProcessFile parser_parse p filePath fs))) =
    flatbuffers (fst (fst (ProcessFile parser_parse printer_print create_fault
                             write_fault p filePath fs))) /\
    snd (fst (go_go.ProcessFile parser_parse p filePath fs)) = fs /\
    (snd (ProcessFile parser_parse printer_print create_fault write_fault
            p filePath fs) = None ->
     snd (go_go.ProcessFile parser_parse p filePath fs) = None).
Proof.
  intros pp pr cf wf p filePath fs. unfold go_go.ProcessFile, ProcessFile.
  destruct (parser_ParseFile pp fs filePath) as [err|tree]; [repeat split; discriminate|].
  destruct (isFlatBufferFile tree); simpl; [|repeat split; discriminate].
  destruct (patchAST tree) as [tree' [patchErr|]]; [repeat split|].
  destruct (os_Create cf fs filePath) as [err|fs1]; [repeat split|].
  destruct (printer_Fprint pr wf fs1 filePath tree') as [fs2 [e|]]; repeat split.
Qed.

(** ** What [PostProcess] does *)

Lemma insert_head x l : HdRel lex_le x l -> sort.insert x l = x :: l.
Proof.
  destruct 1 as [|y l Hxy]; simpl; [reflexivity|].
  unfold lex_le in Hxy. rewrite Hxy. reflexivity.
Qed.

Lemma Strings_of_sorted l : Sorted lex_le l -> sort.Strings l = l.
Proof.
  induction 1 as [|x l _ IH Hhd]; simpl; [reflexivity|].
  rewrite IH. apply insert_head, Hhd.
Qed.

Lemma Strings_twice l : sort.Strings (sort.Strings l) = sort.Strings l.
Proof. apply Strings_of_sorted, Strings_sorted. Qed.

Section PostProcessDisk.
Variable filepath_Join : string -> string -> string.
Variable create_fault : FS -> string -> option error.
Variable write_fault : string -> option (nat * error).

Local Abbreviation post := (PostProcess filepath_Join create_fault write_fault).
Local Abbreviation helper := (fun outputDir => filepath_Join outputDir FlatDataHelperFileName).

Lemma PostProcess_succeeds p outputDir fs :
  create_fault fs (helper outputDir) = None ->
  write_fault (helper outputDir) = None ->
  post p outputDir fs =
    ({| flatbuffers := sort.Strings (flatbuffers p) |},
     writeFile (writeFile fs (helper outputDir) "") (helper outputDir)
       (registryText (sort.Strings (flatbuffers p))),
     None).
Proof.
  intros Hc Hw. unfold PostProcess, os_Create, io_Write. rewrite Hc, Hw.
  simpl. rewrite Execute_flatbufferCode. reflexivity.
Qed.

Lemma PostProcess_success_inv p outputDir fs :
  snd (post p outputDir fs) = None ->
  create_fault fs (helper outputDir) = None /\ write_fault (helper outputDir) = None.
Proof.
  unfold PostProcess, os_Create, io_Write.
  destruct (create_fault fs _) as [err|]; [discriminate|].
  destruct (write_fault _) as [[n err]|]; [discriminate|]. auto.
Qed.

Lemma PostProcess_frame p outputDir fs q :
  q <> helper outputDir -> snd (fst (post p outputDir fs)) q = fs q.
Proof.
  intros Hq. unfold PostProcess, os_Create, io_Write.
  destruct (create_fault fs _) as [err|]; [reflexivity|].
  destruct (write_fault _) as [[n err]|]; simpl;
    rewrite !writeFile_other by exact Hq; reflexivity.
Qed.

Lemma PostProcess_create_fails p outputDir fs err :
  create_fault fs (helper outputDir) = Some err ->
  post p outputDir fs = (p, fs, Some (Errorf "failed to create file" err)).
Proof. intros Hc. unfold PostProcess, os_Create. rewrite Hc. reflexivity. Qed.
End PostProcessDisk.

(** X13. [PostProcess] is idempotent: run again on the processor and the
    file system it left, with the file still creatable, it succeeds again,
    keeps the list of names (already sorted) and writes the same registry
    text. *)
Theorem PostProcess_twice :
  forall filepath_Join create_fault write_fault p outputDir fs,
    snd (PostProcess filepath_Join create_fault write_fault p outputDir fs) = None ->
    create_fault
      (snd (fst (PostProcess filepath_Join create_fault write_fault p outputDir fs)))
      (filepath_Join outputDir FlatDataHelperFileName) = None ->
    snd (PostProcess filepath_Join create_fault write_fault
           (fst (fst (PostProcess filepath_Join create_fault write_fault p outputDir fs)))
           outputDir
           (snd (fst (PostProcess filepath_Join create_fault write_fault p outputDir fs))))
      = None /\
    fst (fst (PostProcess filepath_Join create_fault write_fault
           (fst (fst (PostProcess filepath_Join create_fault write_fault p outputDir fs)))
           outputDir
           (snd (fst (PostProcess filepath_Join create_fault write_fault p outputDir fs)))))
      = fst (fst (PostProcess filepath_Join create_fault write_fault p outputDir fs)) /\
    snd (fst (PostProcess filepath_Join create_fault write_fault
           (fst (fst (PostProcess filepath_Join create_fault write_fault p outputDir fs)))
           outputDir
           (snd (fst (PostProcess filepath_Join create_fault write_fault p outputDir fs)))))
        (filepath_Join outputDir FlatDataHelperFileName)
      = snd (fst (PostProcess filepath_Join create_fault write_fault p outputDir fs))
          (filepath_Join outputDir FlatDataHelperFileName).
Proof.
  intros join cf wf p outputDir fs Hok.
  destruct (PostProcess_success_inv join cf wf p outputDir fs Hok) as [Hc Hw].
  rewrite (PostProcess_succeeds join cf wf p outputDir fs Hc Hw). simpl. intros Hc2.
  rewrite (PostProcess_succeeds join cf wf _ outputDir _ Hc2 Hw). simpl.
  rewrite Strings_twice, !writeFile_same. auto.
Qed.

Lemma PostProcess_twice_witness :
  snd (PostProcess demo_Join no_create_fault no_write_fault
         (fst (fst (PostProcess demo_Join no_create_fault no_write_fault
                      {| flatbuffers := ["Item"; "Account"] |} "out" demo_fs)))
         "out"
         (snd (fst (PostProcess demo_Join no_create_fault no_write_fault
                      {| flatbuffers := ["Item"; "Account"] |} "out" demo_fs))))
    = None.
Proof.
  apply (PostProcess_twice demo_Join no_create_fault no_write_fault
           {| flatbuffers := ["Item"; "Account"] |} "out" demo_fs);
    vm_compute; reflexivity.
Defined.

(** X14. [PostProcess] writes no file but [flatdatas_helper.go] in the
    output directory; when that file cannot be created, it returns the
    wrapped error and changes nothing, not even the order of the names. *)
Theorem PostProcess_touches_one_file :
  forall filepath_Join create_fault write_fault p outputDir fs,
    (forall q, q <> filepath_Join outputDir FlatDataHelperFileName ->
       snd (fst (PostProcess filepath_Join create_fault write_fault p outputDir fs)) q =
         fs q) /\
    (forall err,
       create_fault fs (filepath_Join outputDir FlatDataHelperFileName) = Some err ->
       PostProcess filepath_Join create_fault write_fault p outputDir fs =
         (p, fs, Some (Errorf "failed to create file" err))).
Proof.
  intros join cf wf p outputDir fs. split.
  - intros q Hq. apply PostProcess_frame, Hq.
  - intros err Hc. apply PostProcess_create_fails, Hc.
Qed.

(** ** The two signals of the detector *)

Lemma unsnoc_None s : unsnoc s = None -> s = EmptyString.
Proof.
  destruct s as [|c r]; simpl; [reflexivity|].
  destruct (unsnoc r) as [[init l]|]; discriminate.
Qed.

Lemma unsnoc_spec s : forall t l,
    unsnoc s = Some (t, l) -> s = (t ++ String l EmptyString)%string.
Proof.
  induction s as [|c r IH]; simpl; intros t l H; [discriminate|].
  destruct (unsnoc r) as [[init l']|] eqn:E; inversion H; subst; simpl.
  - rewrite (IH init l eq_refl). reflexivity.
  - rewrite (unsnoc_None _ E). reflexivity.
Qed.

Lemma noQuote_trimRightByte s :
  noQuote s = true -> strings.trimRightByte s "034"%char = s.
Proof.
  induction s as [|c r IH]; simpl; [reflexivity|].
  intros H. apply andb_true_iff in H. destruct H as [Hc Hr].
  rewrite (IH Hr). destruct r; [|reflexivity].
  apply negb_true_iff in Hc. rewrite Hc. reflexivity.
Qed.

Lemma Trim_interpreted t :
  noQuote t = true ->
  strings.Trim (String "034"%char (t ++ String "034"%char EmptyString)) "034"%char = t.
Proof.
  intros Ht. unfold strings.Trim. simpl strings.trimRightByte.
  change (String "034"%char EmptyString) with (copies "034"%char 1).
  rewrite trimRightByte_app_copies, (noQuote_trimRightByte _ Ht).
  destruct t as [|c t]; [reflexivity|].
  simpl in Ht. apply andb_true_iff in Ht. destruct Ht as [Hc _].
  apply negb_true_iff in Hc. simpl. rewrite Hc. reflexivity.
Qed.

(** On an interpreted literal the code's test, trimming double quotes,
    reads the text of the literal. *)
Lemma interpreted_literal lit :
  isInterpreted lit = true ->
  exists t, literalText lit = Some t /\ strings.Trim lit "034"%char = t.
Proof.
  destruct lit as [|q rest]; simpl; [discriminate|].
  intros H. apply andb_true_iff in H. destruct H as [Hq H].
  apply Ascii.eqb_eq in Hq. subst q.
  destruct (unsnoc rest) as [[t l]|] eqn:E; [|discriminate].
  apply andb_true_iff in H. destruct H as [H _].
  apply andb_true_iff in H. destruct H as [Hl Ht].
  apply Ascii.eqb_eq in Hl. subst l.
  exists t. split; [reflexivity|].
  rewrite (unsnoc_spec _ _ _ E). apply Trim_interpreted, Ht.
Qed.

Lemma existsb_ext_in {A} (f g : A -> bool) l :
  (forall x, In x l -> f x = g x) -> existsb f l = existsb g l.
Proof.
  induction l as [|x l IH]; simpl; intros H; [reflexivity|].
  rewrite (H x), IH; auto.
Qed.

Lemma hasFlatBuffersImport_importsPackage file :
  importsAreInterpreted file = true ->
  hasFlatBuffersImport file = importsPackage file.
Proof.
  intros Hwf. unfold hasFlatBuffersImport, importsPackage.
  apply existsb_ext_in. intros imp Hin.
  unfold importsAreInterpreted in Hwf. rewrite forallb_forall in Hwf.
  destruct (interpreted_literal _ (Hwf imp Hin)) as (t & Hlit & Htrim).
  rewrite Hlit, Htrim. reflexivity.
Qed.

(** C1, as amended. For a file whose import paths are written as
    interpreted string literals without escape sequences, the detector
    answers true exactly when
    the file imports the package at [github.com/google/flatbuffers/go]
    and some field of its tree has the type [flatbuffers.Table], where a
    field is any [ast.Field]: a struct field, a parameter, a result or a
    receiver. With the import and no such field
    the answer is false; with such a field and no import it is false, the
    import being tested first. *)
Theorem detector_two_signals : forall file,
    importsAreInterpreted file = true ->
    (isFlatBufferFile file = true <->
       importsPackage file = true /\ hasTableField file) /\
    (importsPackage file = true -> ~ hasTableField file ->
       isFlatBufferFile file = false) /\
    (hasTableField file -> importsPackage file = false ->
       isFlatBufferFile file = false) /\
    (importsPackage file = false ->
       hasFlatBuffersImport file = false /\ isFlatBufferFile file = false).
Proof.
  intros file Hwf.
  pose proof (hasFlatBuffersImport_importsPackage file Hwf) as Himp.
  pose proof (usesFlatBuffersTable_spec file) as Htab.
  unfold isFlatBufferFile. rewrite Himp.
  destruct (importsPackage file); simpl.
  - split; [rewrite Htab; tauto|]. split; [|split].
    + intros _ Hn. apply not_true_is_false. rewrite Htab. exact Hn.
    + discriminate.
    + discriminate.
  - split; [split; [discriminate | intros [H _]; discriminate]|].
    split; [discriminate|]. split; [reflexivity|]. intros _. split; reflexivity.
Qed.

Lemma detector_two_signals_witness :
  (isFlatBufferFile Item_go = true <->
     importsPackage Item_go = true /\ hasTableField Item_go) /\
  (importsPackage Item_go = true -> ~ hasTableField Item_go ->
     isFlatBufferFile Item_go = false) /\
  (hasTableField Item_go -> importsPackage Item_go = false ->
     isFlatBufferFile Item_go = false) /\
  (importsPackage Item_go = false ->
     hasFlatBuffersImport Item_go = false /\ isFlatBufferFile Item_go = false).
Proof.
  apply (detector_two_signals Item_go). vm_compute. reflexivity.
Defined.

(** C1 as stated fails in two ways. [ParamOnly_go] imports the package
    and has no struct field of type [flatbuffers.Table], only a parameter
    of that type, and the detector accepts it: every [ast.Field] counts.
    [RawImport_go] imports the package, by a raw string literal, and has a
    struct field of that type, and the detector rejects it: the test trims
    double quotes only. *)
Lemma detector_counts_every_field :
  (importsPackage ParamOnly_go = true /\
   hasStructTableField ParamOnly_go = false /\
   isFlatBufferFile ParamOnly_go = true) /\
  (importsPackage RawImport_go = true /\
   hasStructTableField RawImport_go = true /\
   isFlatBufferFile RawImport_go = false).
Proof. repeat split; vm_compute; reflexivity. Qed.

(** ** Determinism of the registry *)

(** C5. Two processors that hold the same names in different orders make
    [PostProcess] leave the same file system and return the same error in
    every world. Where the file can be created and written, both calls
    return no error and leave the same processor, and
    [flatdatas_helper.go] holds the registry text of the keys, which are
    the accumulated names, each as often as it was recorded, in ascending
    lexicographic order. *)
Theorem registry_is_deterministic :
  forall filepath_Join create_fault write_fault p1 p2 outputDir fs,
    Permutation (flatbuffers p1) (flatbuffers p2) ->
    (snd (fst (PostProcess filepath_Join create_fault write_fault p1 outputDir fs)) =
     snd (fst (PostProcess filepath_Join create_fault write_fault p2 outputDir fs)) /\
     snd (PostProcess filepath_Join create_fault write_fault p1 outputDir fs) =
     snd (PostProcess filepath_Join create_fault write_fault p2 outputDir fs)) /\
    (create_fault fs (filepath_Join outputDir FlatDataHelperFileName) = None ->
     write_fault (filepath_Join outputDir FlatDataHelperFileName) = None ->
     PostProcess filepath_Join create_fault write_fault p1 outputDir fs =
       ({| flatbuffers := sort.Strings (flatbuffers p1) |},
        writeFile (writeFile fs (filepath_Join outputDir FlatDataHelperFileName) "")
          (filepath_Join outputDir FlatDataHelperFileName)
          (registryText (sort.Strings (flatbuffers p1))),
        None) /\
     PostProcess filepath_Join create_fault write_fault p2 outputDir fs =
       PostProcess filepath_Join create_fault write_fault p1 outputDir fs /\
     snd (fst (PostProcess filepath_Join create_fault write_fault p1 outputDir fs))
         (filepath_Join outputDir FlatDataHelperFileName) =
       Some (registryText (sort.Strings (flatbuffers p1)))) /\
    Sorted lex_le (sort.Strings (flatbuffers p1)) /\
    Permutation (sort.Strings (flatbuffers p1)) (flatbuffers p1).
Proof.
  intros join cf wf p1 p2 outputDir fs Hperm.
  pose proof (Strings_Permutation _ _ Hperm) as Hsort.
  split; [apply PostProcess_same, Hsort|]. split; [|split].
  - intros Hc Hw.
    rewrite (PostProcess_succeeds join cf wf p1 outputDir fs Hc Hw).
    rewrite (PostProcess_succeeds join cf wf p2 outputDir fs Hc Hw), Hsort.
    simpl. rewrite writeFile_same. auto.
  - apply Strings_sorted.
  - apply Strings_perm.
Qed.

Lemma registry_is_deterministic_witness :
  PostProcess demo_Join no_create_fault no_write_fault
    {| flatbuffers := ["Item"; "Character"; "Account"] |} "out" demo_fs =
    ({| flatbuffers := ["Account"; "Character"; "Item"] |},
     writeFile (writeFile demo_fs "out/flatdatas_helper.go" "")
       "out/flatdatas_helper.go" (registryText ["Account"; "Character"; "Item"]),
     None) /\
  PostProcess demo_Join no_create_fault no_write_fault
    {| flatbuffers := ["Account"; "Item"; "Character"] |} "out" demo_fs =
  PostProcess demo_Join no_create_fault no_write_fault
    {| flatbuffers := ["Item"; "Character"; "Account"] |} "out" demo_fs /\
  snd (fst (PostProcess demo_Join no_create_fault no_write_fault
              {| flatbuffers := ["Item"; "Character"; "Account"] |} "out" demo_fs))
      "out/flatdatas_helper.go" =
    Some (registryText ["Account"; "Character"; "Item"]).
Proof.
  assert (Hperm : Permutation ["Item"; "Character"; "Account"]
                              ["Account"; "Item"; "Character"]).
  { apply Permutation_sym.
    apply (Permutation_cons_app ["Item"; "Character"] [] "Account"). reflexivity. }
  destruct (registry_is_deterministic demo_Join no_create_fault no_write_fault
              {| flatbuffers := ["Item"; "Character"; "Account"] |}
              {| flatbuffers := ["Account"; "Item"; "Character"] |} "out" demo_fs Hperm)
    as (_ & Hfile & _).
  apply Hfile; reflexivity.
Defined.

(** ** Files the patch leaves as they are *)

(** C7, as amended. Let the file hold [src], the parser read [src] as
    [tree], and [patchAST] leave [tree] as it is. If the detector rejects
    [tree], the call leaves the whole file system as it was. If it accepts
    [tree], the file can be created and written and the printer renders
    [tree] as [text], the call returns no error, every other file is as it
    was, and the file is truncated and rewritten with [text]: its content
    is the one before the call exactly when the printer's rendering of the
    parsed tree is the original text. *)
Theorem unmutated_file_is_reprinted :
  forall parser_parse printer_print create_fault write_fault p filePath fs src tree,
    fs filePath = Some src ->
    parser_parse src = inr tree ->
    fst (patchAST tree) = tree ->
    (isFlatBufferFile tree = false ->
     snd (fst (ProcessFile parser_parse printer_print create_fault write_fault
                 p filePath fs)) = fs) /\
    (forall text,
       isFlatBufferFile tree = true ->
       create_fault fs filePath = None ->
       write_fault filePath = None ->
       printer_print tree = inr text ->
       snd (ProcessFile parser_parse printer_print create_fault write_fault
              p filePath fs) = None /\
       snd (fst (ProcessFile parser_parse printer_print create_fault write_fault
                   p filePath fs)) filePath = Some text /\
       (forall q, q <> filePath ->
          snd (fst (ProcessFile parser_parse printer_print create_fault write_fault
                      p filePath fs)) q = fs q) /\
       (snd (fst (ProcessFile parser_parse printer_print create_fault write_fault
                    p filePath fs)) filePath = fs filePath <-> text = src)).
Proof.
  intros pp pr cf wf p filePath fs src tree Hfs Hsrc Hsame.
  assert (Hp : parser_ParseFile pp fs filePath = inr tree).
  { unfold parser_ParseFile. rewrite Hfs. exact Hsrc. }
  split.
  - intros Hd. rewrite (ProcessFile_skips pp pr cf wf p filePath fs tree Hp Hd).
    reflexivity.
  - intros text Hd Hc Hw Hpr.
    assert (Hpr' : pr (fst (patchAST tree)) = inr text) by (rewrite Hsame; exact Hpr).
    pose proof (ProcessFile_frame pp pr cf wf p filePath fs) as Hframe.
    rewrite (ProcessFile_succeeds pp pr cf wf p filePath fs tree text Hp Hd Hc Hpr' Hw)
      in *.
    simpl in *. rewrite writeFile_same, Hfs.
    split; [reflexivity|]. split; [reflexivity|]. split; [exact Hframe|].
    split; intros H; [inversion H; reflexivity | rewrite H; reflexivity].
Qed.

Lemma unmutated_file_is_reprinted_witness :
  snd (ProcessFile parse_patched print_canonical no_create_fault no_write_fault
         NewGoProcessor "out/Item.go" spaced_fs) = None /\
  snd (fst (ProcessFile parse_patched print_canonical no_create_fault no_write_fault
              NewGoProcessor "out/Item.go" spaced_fs)) "out/Item.go" =
    Some printed_source /\
  (forall q, q <> "out/Item.go"%string ->
     snd (fst (ProcessFile parse_patched print_canonical no_create_fault no_write_fault
                 NewGoProcessor "out/Item.go" spaced_fs)) q = spaced_fs q) /\
  (snd (fst (ProcessFile parse_patched print_canonical no_create_fault no_write_fault
               NewGoProcessor "out/Item.go" spaced_fs)) "out/Item.go" =
     spaced_fs "out/Item.go" <-> printed_source = spaced_source).
Proof.
  destruct (unmutated_file_is_reprinted parse_patched print_canonical no_create_fault
              no_write_fault NewGoProcessor "out/Item.go" spaced_fs spaced_source
              ItemPatched_go)
    as [_ Hrecord]; [reflexivity | reflexivity | reflexivity |].
  apply (Hrecord printed_source); reflexivity.
Defined.

(** C7 as stated fails. The file holds the patched [Item.go] with its
    package clause written as [package   flatdata]; the parser reads it as
    [ItemPatched_go], which has a [Name] method, so the patch changes
    nothing; the printer writes the clause as [package flatdata]. The call
    succeeds and the file no longer holds the bytes it held. *)
Lemma reprint_changes_bytes :
  spaced_fs "out/Item.go" = Some spaced_source /\
  parse_patched spaced_source = inr ItemPatched_go /\
  isFlatBufferFile ItemPatched_go = true /\
  hasNameMethod ItemPatched_go = true /\
  patchAST ItemPatched_go = (ItemPatched_go, None) /\
  print_canonical ItemPatched_go = inr printed_source /\
  snd (ProcessFile parse_patched print_canonical no_create_fault no_write_fault
         NewGoProcessor "out/Item.go" spaced_fs) = None /\
  snd (fst (ProcessFile parse_patched print_canonical no_create_fault no_write_fault
              NewGoProcessor "out/Item.go" spaced_fs)) "out/Item.go" =
    Some printed_source /\
  Some printed_source <> spaced_fs "out/Item.go".
Proof.
  repeat split; try (vm_compute; reflexivity).
  vm_compute. discriminate.
Qed.

(** ** The registry after a run, and a second run *)

(** X15. A record file that [ProcessFile] has seen is a key of the
    registry [PostProcess] writes afterwards, whether the rewrite of the
    file itself succeeded or not: when [flatdatas_helper.go] can be
    created and written on the file system [ProcessFile] left,
    [PostProcess] returns no error and the file holds the registry text
    of a sorted list of keys that has the recorded name of the file and
    every name recorded before it. *)
Theorem processed_file_is_in_registry :
  forall parser_parse printer_print filepath_Join create_fault write_fault
         p filePath fs tree outputDir,
    parser_ParseFile parser_parse fs filePath = inr tree ->
    isFlatBufferFile tree = true ->
    create_fault
      (snd (fst (ProcessFile parser_parse printer_print create_fault write_fault
                   p filePath fs)))
      (filepath_Join outputDir FlatDataHelperFileName) = None ->
    write_fault (filepath_Join outputDir FlatDataHelperFileName) = None ->
    exists keys,
      snd (PostProcess filepath_Join create_fault write_fault
             (fst (fst (ProcessFile parser_parse printer_print create_fault write_fault
                          p filePath fs)))
             outputDir
             (snd (fst (ProcessFile parser_parse printer_print create_fault write_fault
                          p filePath fs)))) = None /\
      snd (fst (PostProcess filepath_Join create_fault write_fault
           (fst (fst (ProcessFile parser_parse printer_print create_fault write_fault
                        p filePath fs)))
           outputDir
           (snd (fst (ProcessFile parser_parse printer_print create_fault write_fault
                        p filePath fs)))))
        (filepath_Join outputDir FlatDataHelperFileName) = Some (registryText keys) /\
      Sorted lex_le keys /\
      Permutation keys (flatbuffers p ++ [recordedName filePath]) /\
      In (recordedName filePath) keys /\
      (forall name, In name (flatbuffers p) -> In name keys).
Proof.
  intros pp pr join cf wf p filePath fs tree outputDir Hp Hd Hc Hw.
  pose proof (ProcessFile_records pp pr cf wf p filePath fs tree Hp Hd) as Hnames.
  destruct (ProcessFile pp pr cf wf p filePath fs) as [[p1 fs1] e1]. simpl in *.
  exists (sort.Strings (flatbuffers p1)).
  rewrite (PostProcess_succeeds join cf wf p1 outputDir fs1 Hc Hw). simpl.
  rewrite writeFile_same.
  assert (Hkeys : forall name, In name (flatbuffers p1) ->
                               In name (sort.Strings (flatbuffers p1))).
  { intros name. apply Permutation_in, Permutation_sym, Strings_perm. }
  split; [reflexivity|]. split; [reflexivity|].
  split; [apply Strings_sorted|].
  split; [rewrite <- Hnames; apply Strings_perm|].
  split.
  - apply Hkeys. rewrite Hnames. apply in_or_app. right. left. reflexivity.
  - intros name Hin. apply Hkeys. rewrite Hnames. apply in_or_app. left. exact Hin.
Qed.

Lemma processed_file_is_in_registry_witness :
  exists keys,
    snd (PostProcess demo_Join no_create_fault no_write_fault
           (fst (fst (ProcessFile (demo_parse Item_go) failing_print no_create_fault
                        no_write_fault {| flatbuffers := ["Account"] |}
                        "out/Item.go" demo_fs)))
           "out"
           (snd (fst (ProcessFile (demo_parse Item_go) failing_print no_create_fault
                        no_write_fault {| flatbuffers := ["Account"] |}
                        "out/Item.go" demo_fs)))) = None /\
    snd (fst (PostProcess demo_Join no_create_fault no_write_fault
         (fst (fst (ProcessFile (demo_parse Item_go) failing_print no_create_fault
                      no_write_fault {| flatbuffers := ["Account"] |}
                      "out/Item.go" demo_fs)))
         "out"
         (snd (fst (ProcessFile (demo_parse Item_go) failing_print no_create_fault
                      no_write_fault {| flatbuffers := ["Account"] |}
                      "out/Item.go" demo_fs)))))
      (demo_Join "out" FlatDataHelperFileName) = Some (registryText keys) /\
    Sorted lex_le keys /\
    Permutation keys (["Account"] ++ [recordedName "out/Item.go"]) /\
    In (recordedName "out/Item.go") keys /\
    (forall name, In name ["Account"] -> In name keys).
Proof.
  apply (processed_file_is_in_registry (demo_parse Item_go) failing_print demo_Join
           no_create_fault no_write_fault {| flatbuffers := ["Account"] |}
           "out/Item.go" demo_fs Item_go "out"); vm_compute; reflexivity.
Defined.

(** X17. A second run over a rewritten file. The first call succeeded
    and wrote [text]. If the parser reads [text] as a tree the detector
    accepts and in which [hasNameMethod] finds the method, and the printer
    renders that tree as [text2], the second call appends nothing: it
    succeeds, records the name once more and leaves [text2] in the file.
    Where the printer renders the tree as the text it was read from, the
    second run leaves every file as the first run left it. *)
Theorem rerun_reprints_parsed_tree :
  forall parser_parse printer_print create_fault write_fault p p' filePath fs
         tree text tree2 text2,
    parser_ParseFile parser_parse fs filePath = inr tree ->
    isFlatBufferFile tree = true ->
    printer_print (fst (patchAST tree)) = inr text ->
    create_fault fs filePath = None ->
    write_fault filePath = None ->
    parser_parse text = inr tree2 ->
    isFlatBufferFile tree2 = true ->
    hasNameMethod tree2 = true ->
    printer_print tree2 = inr text2 ->
    create_fault (writeFile (writeFile fs filePath "") filePath text) filePath = None ->
    snd (fst (ProcessFile parser_parse printer_print create_fault write_fault
                p filePath fs)) = writeFile (writeFile fs filePath "") filePath text /\
    snd (ProcessFile parser_parse printer_print create_fault write_fault p' filePath
           (writeFile (writeFile fs filePath "") filePath text)) = None /\
    flatbuffers
      (fst (fst (ProcessFile parser_parse printer_print create_fault write_fault p'
                   filePath (writeFile (writeFile fs filePath "") filePath text)))) =
      flatbuffers p' ++ [recordedName filePath] /\
    snd (fst (ProcessFile parser_parse printer_print create_fault write_fault p' filePath
                (writeFile (writeFile fs filePath "") filePath text))) filePath =
      Some text2 /\
    (text2 = text ->
     forall q,
       snd (fst (ProcessFile parser_parse printer_print create_fault write_fault p'
                   filePath (writeFile (writeFile fs filePath "") filePath text))) q =
       writeFile (writeFile fs filePath "") filePath text q).
Proof.
  intros pp pr cf wf p p' filePath fs tree text tree2 text2
         Hp Hd Hpr Hc Hw Hre Hd2 Hname Hpr2 Hc2.
  rewrite (ProcessFile_succeeds pp pr cf wf p filePath fs tree text Hp Hd Hc Hpr Hw).
  split; [reflexivity|].
  assert (Hp2 : parser_ParseFile pp (writeFile (writeFile fs filePath "") filePath text)
                  filePath = inr tree2).
  { unfold parser_ParseFile. rewrite writeFile_same. exact Hre. }
  assert (Hpr2' : pr (fst (patchAST tree2)) = inr text2)
    by (rewrite (patchAST_guard _ Hname); exact Hpr2).
  rewrite (ProcessFile_succeeds pp pr cf wf p' filePath _ tree2 text2 Hp2 Hd2 Hc2 Hpr2' Hw).
  simpl. rewrite writeFile_same.
  split; [reflexivity|]. split; [reflexivity|]. split; [reflexivity|].
  intros -> q. unfold writeFile. destruct (String.eqb q filePath); reflexivity.
Qed.

Lemma rerun_reprints_parsed_tree_witness :
  snd (fst (ProcessFile reparse demo_print no_create_fault no_write_fault
              NewGoProcessor "out/Item.go" demo_fs)) =
    writeFile (writeFile demo_fs "out/Item.go" "") "out/Item.go" "flatdata;;;" /\
  snd (ProcessFile reparse demo_print no_create_fault no_write_fault NewGoProcessor
         "out/Item.go"
         (writeFile (writeFile demo_fs "out/Item.go" "") "out/Item.go" "flatdata;;;")) =
    None /\
  flatbuffers
    (fst (fst (ProcessFile reparse demo_print no_create_fault no_write_fault
                 NewGoProcessor "out/Item.go"
                 (writeFile (writeFile demo_fs "out/Item.go" "") "out/Item.go"
                    "flatdata;;;")))) =
    flatbuffers NewGoProcessor ++ [recordedName "out/Item.go"] /\
  snd (fst (ProcessFile reparse demo_print no_create_fault no_write_fault NewGoProcessor
              "out/Item.go"
              (writeFile (writeFile demo_fs "out/Item.go" "") "out/Item.go"
                 "flatdata;;;"))) "out/Item.go" = Some "flatdata;;;"%string /\
  ("flatdata;;;"%string = "flatdata;;;"%string ->
   forall q,
     snd (fst (ProcessFile reparse demo_print no_create_fault no_write_fault
                 NewGoProcessor "out/Item.go"
                 (writeFile (writeFile demo_fs "out/Item.go" "") "out/Item.go"
                    "flatdata;;;"))) q =
     writeFile (writeFile demo_fs "out/Item.go" "") "out/Item.go" "flatdata;;;" q).
Proof.
  apply (rerun_reprints_parsed_tree reparse demo_print no_create_fault no_write_fault
           NewGoProcessor NewGoProcessor "out/Item.go" demo_fs Item_go "flatdata;;;"
           ItemPatched_go "flatdata;;;");
    vm_compute; reflexivity.
Defined.
